(** * User-management REST API: request handlers over a user store

    A shallow embedding of [app/routers/user_routes.py] (the five FastAPI
    handlers [get_user], [update_user], [delete_user], [create_user] and
    [list_users]) together with the constraints of the [users] table
    created by [alembic/versions/95daf945575a_initial_migration.py].

    Handlers are [async] functions that thread one database session and
    either return a response object or raise; they are embedded in a state
    and exception monad over the store.  The data-access class
    [UserService] and the link helpers live in modules that are not part of
    the sources at hand; handlers are therefore written against an
    interface of the service, and one instance of it is modelled from the
    specification. *)

From Stdlib Require Import ZArith Lia.
From stdpp Require Import base option strings gmap list pretty.

Local Open Scope string_scope.
Local Open Scope list_scope.

(** ** Exceptions and the handler monad *)

(** What a handler can raise: [fastapi.HTTPException], Python's
    [ZeroDivisionError] (integer [//] by zero), and an error of the store
    that no handler catches. *)
Inductive exn : Type :=
| HTTPException (status_code : Z) (detail : string)
| ZeroDivisionError
| StoreError (msg : string).

Inductive outcome (A : Type) : Type :=
| Return (a : A)
| Raise (e : exn).
Arguments Return {A} a.
Arguments Raise {A} e.

(** A computation over a session of type [S]: the value returned or the
    exception raised, and the store afterwards. *)
Definition M (S A : Type) : Type := S → outcome A * S.

Definition ret {S A} (a : A) : M S A := λ s, (Return a, s).
Definition raise {S A} (e : exn) : M S A := λ s, (Raise e, s).
Definition bind {S A B} (m : M S A) (k : A → M S B) : M S B :=
  λ s, match m s with
       | (Return a, s') => k a s'
       | (Raise e, s') => (Raise e, s')
       end.

Notation "'await' x ':=' m 'in' k" := (bind m (λ x, k))
  (at level 10, x name, m at level 100, k at level 200,
   format "'[v' 'await'  x  ':='  m  'in' '/' k ']'").

(** [starlette.status] constants used by the router. *)
Definition HTTP_200_OK : Z := 200.
Definition HTTP_201_CREATED : Z := 201.
Definition HTTP_204_NO_CONTENT : Z := 204.
Definition HTTP_400_BAD_REQUEST : Z := 400.
Definition HTTP_401_UNAUTHORIZED : Z := 401.
Definition HTTP_404_NOT_FOUND : Z := 404.
Definition HTTP_422_UNPROCESSABLE_ENTITY : Z := 422.
Definition HTTP_500_INTERNAL_SERVER_ERROR : Z := 500.

(** Python's [a // b] on [int]: floor division, raising on a zero divisor.
    [Z.div] rounds towards minus infinity like Python does. *)
Definition floordiv {S} (a b : Z) : M S Z :=
  if decide (b = 0)%Z then raise ZeroDivisionError else ret (a / b)%Z.

(** ** Data model *)

(** A UUID in its canonical textual form, a timestamp as seconds. *)
Definition UUID : Type := string.
Definition datetime : Type := Z.

(** One row of the [users] table; the columns and their nullability are
    those of [upgrade()] in the migration. *)
Module User.
Record t : Type := mk {
  id : UUID;
  username : string;
  email : string;
  hashed_password : string;
  full_name : option string;
  bio : option string;
  profile_picture_url : option string;
  last_login_at : option datetime;
  failed_login_attempts : option Z;
  created_at : datetime;
  updated_at : datetime
}.
End User.

(** The part of [starlette.requests.Request] the handlers touch: the base
    URL of the application and the credential of the [Authorization]
    header, [Some token] when the header reads [Bearer token]. *)
Module Request.
Record t : Type := mk {
  base_url : string;
  bearer : option string
}.
End Request.

(** The object built by [UserResponse.model_construct(...)]: exactly the
    keyword arguments the handlers pass. *)
Module UserResponse.
Record t : Type := model_construct {
  id : UUID;
  username : string;
  email : string;
  last_login_at : option datetime;
  created_at : datetime;
  updated_at : datetime;
  links : gmap string string
}.
End UserResponse.

(** Modelled from the spec: the request schema [UserCreate] of
    [app.schemas.user_schemas] is not in the sources. Section 4.3 gives its
    input as username, email, password and the optional profile fields;
    [model_dump()] turns it into a dictionary with these keys. *)
Module UserCreate.
Record t : Type := mk {
  username : string;
  email : string;
  password : string;
  full_name : option string;
  bio : option string;
  profile_picture_url : option string
}.
End UserCreate.

(** Modelled from the spec: the request schema [UserUpdate] of
    [app.schemas.user_schemas] is not in the sources. It is a pydantic
    model of the optional profile fields: every field has a value ([None]
    unless given) and [model_fields_set] records which fields the request
    body named, so that an explicit null differs from an omitted field. *)
Module UserUpdate.
Record t : Type := mk {
  full_name : option string;
  bio : option string;
  profile_picture_url : option string;
  model_fields_set : gset string
}.
End UserUpdate.

(** [user_update.model_dump(exclude_unset=True)]: the dictionary of the
    fields that were set, a null value included. *)
Definition model_dump_exclude_unset (user_update : UserUpdate.t)
  : gmap string (option string) :=
  filter (λ kv, kv.1 ∈ UserUpdate.model_fields_set user_update)
    (list_to_map
       [("full_name", UserUpdate.full_name user_update);
        ("bio", UserUpdate.bio user_update);
        ("profile_picture_url", UserUpdate.profile_picture_url user_update)]
     : gmap string (option string)).

(** [Response(status_code=...)]: a bare response, no content given. *)
Module Response.
Record t : Type := mk {
  status_code : Z;
  content : option string
}.
End Response.

(** [EnhancedPagination(...)] and [UserListResponse(...)], with the keyword
    arguments [list_users] passes. *)
Module EnhancedPagination.
Record t : Type := mk {
  page : Z;
  per_page : Z;
  total_items : Z;
  total_pages : Z;
  links : gmap string string
}.
End EnhancedPagination.

Module UserListResponse.
Record t : Type := mk {
  items : list UserResponse.t;
  pagination : EnhancedPagination.t
}.
End UserListResponse.

(** ** The data-access interface *)

(** The class methods of [app.services.user_service.UserService] that the
    router awaits, each over the session [DB]. A lookup yields [None] for
    "no such row"; any of them may raise. *)
Module UserService.
Class Ops (DB : Type) : Type := {
  get_by_id : UUID → M DB (option User.t);
  get_by_username : string → M DB (option User.t);
  list_users : Z → Z → M DB (list User.t);
  count : M DB Z;
  create : UserCreate.t → M DB (option User.t);
  update : UUID → gmap string (option string) → M DB (option User.t);
  delete : UUID → M DB bool
}.
End UserService.

(** ** Link generation *)

(** [request.url_for(name, user_id=...)] for the three routes on
    ["/users/{user_id}"] declared by the router. *)
Definition url_for_user (request : Request.t) (user_id : UUID) : string :=
  Request.base_url request +:+ "/users/" +:+ user_id.

(** Modelled from the spec: [create_user_links] of
    [app.utils.link_generation] is not in the sources. Section 4.2: a
    mapping with keys [self], [update] and [delete], each an absolute URL
    built from the request's base URL and the route template for
    [user_id]. *)
Definition create_user_links (user_id : UUID) (request : Request.t)
  : gmap string string :=
  {[ "self" := url_for_user request user_id;
     "update" := url_for_user request user_id;
     "delete" := url_for_user request user_id ]}.

(** The URL of one page of the ["/users/"] listing. *)
Definition page_url (request : Request.t) (skip limit : Z) : string :=
  Request.base_url request +:+ "/users/?skip=" +:+ pretty skip
    +:+ "&limit=" +:+ pretty limit.

(** Modelled from the spec: [generate_pagination_links] of
    [app.utils.link_generation] is not in the sources. Section 4.2: a
    mapping with key [self] always, [next] iff [skip + limit < total_items]
    and [previous] iff [skip > 0], its offset clamped to zero. *)
Definition generate_pagination_links (request : Request.t)
    (skip limit total_items : Z) : gmap string string :=
  let links : gmap string string := {[ "self" := page_url request skip limit ]} in
  let links :=
    if decide (skip + limit < total_items)%Z
    then <["next" := page_url request (skip + limit) limit]> links
    else links in
  if decide (skip > 0)%Z
  then <["previous" := page_url request (Z.max (skip - limit) 0) limit]> links
  else links.

(** ** The router *)

(** [oauth2_scheme = OAuth2PasswordBearer(tokenUrl="token")] as a
    dependency: FastAPI answers 401 when the request carries no bearer
    credential and hands the token to the handler otherwise. *)
Definition oauth2_scheme {DB} (request : Request.t) : M DB string :=
  match Request.bearer request with
  | Some token => ret token
  | None => raise (HTTPException HTTP_401_UNAUTHORIZED "Not authenticated")
  end.

Section Router.
Context {DB : Type} `{!UserService.Ops DB}.

Definition get_user (user_id : UUID) (request : Request.t) (token : string)
  : M DB UserResponse.t :=
  await user := UserService.get_by_id user_id in
  match user with
  | None => raise (HTTPException HTTP_404_NOT_FOUND "User not found")
  | Some user =>
      ret (UserResponse.model_construct
             (User.id user) (User.username user) (User.email user)
             (User.last_login_at user) (User.created_at user)
             (User.updated_at user)
             (create_user_links (User.id user) request))
  end.

Definition update_user (user_id : UUID) (user_update : UserUpdate.t)
    (request : Request.t) (token : string) : M DB UserResponse.t :=
  let user_data := model_dump_exclude_unset user_update in
  await updated_user := UserService.update user_id user_data in
  match updated_user with
  | None => raise (HTTPException HTTP_404_NOT_FOUND "User not found")
  | Some updated_user =>
      ret (UserResponse.model_construct
             (User.id updated_user) (User.username updated_user)
             (User.email updated_user) (User.last_login_at updated_user)
             (User.created_at updated_user) (User.updated_at updated_user)
             (create_user_links (User.id updated_user) request))
  end.

Definition delete_user (user_id : UUID) (token : string) : M DB Response.t :=
  await success := UserService.delete user_id in
  if negb success
  then raise (HTTPException HTTP_404_NOT_FOUND "User not found")
  else ret (Response.mk HTTP_204_NO_CONTENT None).

Definition create_user (user : UserCreate.t) (request : Request.t)
    (token : string) : M DB UserResponse.t :=
  await existing_user := UserService.get_by_username (UserCreate.username user) in
  match existing_user with
  | Some _ =>
      raise (HTTPException HTTP_400_BAD_REQUEST "Username already exists")
  | None =>
      await created_user := UserService.create user in
      match created_user with
      | None =>
          raise (HTTPException HTTP_500_INTERNAL_SERVER_ERROR
                   "Failed to create user")
      | Some created_user =>
          let links := create_user_links (User.id created_user) request in
          ret (UserResponse.model_construct
                 (User.id created_user) (User.username created_user)
                 (User.email created_user) (User.last_login_at created_user)
                 (User.created_at created_user) (User.updated_at created_user)
                 links)
      end
  end.

Definition list_users (request : Request.t) (skip limit : Z) (token : string)
  : M DB UserListResponse.t :=
  await total_users := UserService.count in
  await users := UserService.list_users skip limit in
  let user_responses :=
    (λ user, UserResponse.model_construct
               (User.id user) (User.username user) (User.email user)
               (User.last_login_at user) (User.created_at user)
               (User.updated_at user)
               (create_user_links (User.id user) request)) <$> users in
  let pagination_links :=
    generate_pagination_links request skip limit total_users in
  await q := floordiv skip limit in
  let page := (q + 1)%Z in
  await total_pages := floordiv (total_users + limit - 1) limit in
  let pagination :=
    EnhancedPagination.mk page limit total_users total_pages pagination_links in
  ret (UserListResponse.mk user_responses pagination).

(** The five routes: the [token] parameter of each handler is filled by
    [Depends(oauth2_scheme)] before the body runs. *)
Definition GET_user (request : Request.t) (user_id : UUID) :=
  await token := oauth2_scheme request in get_user user_id request token.

Definition PUT_user (request : Request.t) (user_id : UUID)
    (user_update : UserUpdate.t) :=
  await token := oauth2_scheme request in
  update_user user_id user_update request token.

Definition DELETE_user (request : Request.t) (user_id : UUID) :=
  await token := oauth2_scheme request in delete_user user_id token.

Definition POST_users (request : Request.t) (user : UserCreate.t) :=
  await token := oauth2_scheme request in create_user user request token.

Definition GET_users (request : Request.t) (skip limit : Z) :=
  await token := oauth2_scheme request in list_users request skip limit token.
End Router.

(** ** A store modelled from the specification *)

(** What the surroundings supply while one request is served: the current
    time, the identifier drawn for a new row, and the password hasher. *)
Record Env : Type := {
  now : datetime;
  uuid4 : UUID;
  hash_password : string → string
}.

(** Modelled from the spec: [UserService] of [app.services.user_service] is
    not in the sources. Section 4.1 describes its seven operations; the
    table is the list of its rows in insertion order, and the uniqueness
    constraints are those of the migration (primary key [id], unique
    [email], unique [username]). *)
Module SpecStore.
Definition Store : Type := list User.t.

Definition has_id (user_id : UUID) (u : User.t) : bool :=
  bool_decide (User.id u = user_id).
Definition has_username (name : string) (u : User.t) : bool :=
  bool_decide (User.username u = name).
Definition has_email (e : string) (u : User.t) : bool :=
  bool_decide (User.email u = e).

Definition get_by_id (user_id : UUID) : M Store (option User.t) :=
  λ rows, (Return (List.find (has_id user_id) rows), rows).

Definition get_by_username (name : string) : M Store (option User.t) :=
  λ rows, (Return (List.find (has_username name) rows), rows).

(** Offset by [skip], capped at [limit]. *)
Definition list_users (skip limit : Z) : M Store (list User.t) :=
  λ rows, (Return (take (Z.to_nat limit) (drop (Z.to_nat skip) rows)), rows).

Definition count : M Store Z :=
  λ rows, (Return (Z.of_nat (length rows)), rows).

(** A new row violates a constraint when its identifier, its username or
    its email is already in the table. *)
Definition violates_unique (u : User.t) (rows : Store) : bool :=
  existsb (λ r, has_id (User.id u) r || has_username (User.username u) r
                || has_email (User.email u) r) rows.

Definition new_row (env : Env) (fields : UserCreate.t) : User.t :=
  User.mk (uuid4 env) (UserCreate.username fields) (UserCreate.email fields)
          (hash_password env (UserCreate.password fields))
          (UserCreate.full_name fields) (UserCreate.bio fields)
          (UserCreate.profile_picture_url fields)
          None (Some 0%Z) (now env) (now env).

Definition create (env : Env) (fields : UserCreate.t)
  : M Store (option User.t) :=
  λ rows,
    let u := new_row env fields in
    if violates_unique u rows then (Return None, rows)
    else (Return (Some u), rows ++ [u]).

(** The value a column takes under a partial update: the payload's when
    the payload names the column, the old one otherwise. *)
Definition assign (fields : gmap string (option string)) (column : string)
    (old : option string) : option string :=
  match fields !! column with
  | Some v => v
  | None => old
  end.

Definition apply_update (env : Env) (fields : gmap string (option string))
    (u : User.t) : User.t :=
  User.mk (User.id u) (User.username u) (User.email u)
          (User.hashed_password u)
          (assign fields "full_name" (User.full_name u))
          (assign fields "bio" (User.bio u))
          (assign fields "profile_picture_url" (User.profile_picture_url u))
          (User.last_login_at u) (User.failed_login_attempts u)
          (User.created_at u) (now env).

Definition update (env : Env) (user_id : UUID)
    (fields : gmap string (option string)) : M Store (option User.t) :=
  λ rows,
    match List.find (has_id user_id) rows with
    | None => (Return None, rows)
    | Some u =>
        (Return (Some (apply_update env fields u)),
         (λ r, if has_id user_id r then apply_update env fields r else r)
           <$> rows)
    end.

Definition delete (user_id : UUID) : M Store bool :=
  λ rows,
    (Return (existsb (has_id user_id) rows),
     List.filter (λ r, negb (has_id user_id r)) rows).

#[export] Instance ops (env : Env) : UserService.Ops Store := {|
  UserService.get_by_id := get_by_id;
  UserService.get_by_username := get_by_username;
  UserService.list_users := list_users;
  UserService.count := count;
  UserService.create := create env;
  UserService.update := update env;
  UserService.delete := delete
|}.

(** The primary-key constraint as a property of a table. *)
Definition pk_unique (rows : Store) : Prop := NoDup (User.id <$> rows).
End SpecStore.

(** ** Notions used by the statements *)

(** [k] is the ceiling of [n / d]: the least number of pages of [d] items
    that hold [n] items. *)
Definition is_ceil_div (n d k : Z) : Prop := ((k - 1) * d < n ≤ k * d)%Z.

(** ** Sample data *)

Definition sample_env : Env :=
  {| now := 1712556416%Z; uuid4 := "id-new"; hash_password := λ p, "h$" +:+ p |}.

Definition sample_user (n : nat) : User.t :=
  User.mk ("id-" +:+ pretty n) ("user" +:+ pretty n)
          ("user" +:+ pretty n +:+ "@example.com") ("h$secret" +:+ pretty n)
          (Some ("User " +:+ pretty n)) (Some "bio")
          (Some ("http://pics/" +:+ pretty n)) None (Some 0%Z)
          1712500000%Z 1712500000%Z.

(** A table of [n] rows. *)
Definition sample_store (n : nat) : SpecStore.Store :=
  sample_user <$> seq 0 n.

Definition sample_request : Request.t :=
  Request.mk "http://testserver" (Some "token-a").

Definition sample_create (name mail : string) : UserCreate.t :=
  UserCreate.mk name mail "s3cret" (Some "New User") None None.

(** A payload that names [full_name] (as null) and [bio], and omits
    [profile_picture_url]. *)
Definition sample_update : UserUpdate.t :=
  UserUpdate.mk None (Some "new bio") None {[ "full_name"; "bio" ]}.

Definition sample_request_b : Request.t :=
  Request.mk "http://testserver" (Some "token-b").

Definition sample_request_anonymous : Request.t :=
  Request.mk "http://testserver" None.

(** ** What a response may depend on *)

(** A row with its password hash blotted out, and two tables that agree on
    everything but the password hashes. *)
Definition redact (u : User.t) : User.t :=
  User.mk (User.id u) (User.username u) (User.email u) ""
          (User.full_name u) (User.bio u) (User.profile_picture_url u)
          (User.last_login_at u) (User.failed_login_attempts u)
          (User.created_at u) (User.updated_at u).

Definition same_public (rows1 rows2 : SpecStore.Store) : Prop :=
  redact <$> rows1 = redact <$> rows2.

(** Two create requests that differ at most in the password. *)
Definition same_but_password (user1 user2 : UserCreate.t) : Prop :=
  UserCreate.username user1 = UserCreate.username user2
  ∧ UserCreate.email user1 = UserCreate.email user2
  ∧ UserCreate.full_name user1 = UserCreate.full_name user2
  ∧ UserCreate.bio user1 = UserCreate.bio user2
  ∧ UserCreate.profile_picture_url user1 = UserCreate.profile_picture_url user2.

(** The sample table with every password hash replaced. *)
Definition sample_store_rehashed (n : nat) : SpecStore.Store :=
  (λ u, User.mk (User.id u) (User.username u) (User.email u)
                ("argon2$" +:+ User.username u)
                (User.full_name u) (User.bio u) (User.profile_picture_url u)
                (User.last_login_at u) (User.failed_login_attempts u)
                (User.created_at u) (User.updated_at u)) <$> sample_store n.

Definition sample_env_b : Env :=
  {| now := 1712556416%Z; uuid4 := "id-new"; hash_password := λ p, "bcrypt$" +:+ p |}.

(** [response_of request user]: the [UserResponse] every handler builds
    from a row. *)
Definition response_of (request : Request.t) (user : User.t) : UserResponse.t :=
  UserResponse.model_construct
    (User.id user) (User.username user) (User.email user)
    (User.last_login_at user) (User.created_at user) (User.updated_at user)
    (create_user_links (User.id user) request).

(** ** The migration *)

(** The column types [sa.UUID()], [sa.String(length=n)], [sa.DateTime()]
    and [sa.Integer()]. *)
Inductive sa_type : Type :=
| sa_UUID
| sa_String (length : Z)
| sa_DateTime
| sa_Integer.

Module Column.
Record t : Type := mk {
  name : string;
  type_ : sa_type;
  nullable : bool
}.
End Column.

Inductive Constraint : Type :=
| PrimaryKeyConstraint (columns : list string)
| UniqueConstraint (columns : list string).

Module Table.
Record t : Type := mk {
  columns : list Column.t;
  constraints : list Constraint
}.
End Table.

(** The arguments of [op.create_table('users', ...)] in [upgrade()]. *)
Definition users_table : Table.t :=
  Table.mk
    [ Column.mk "id" sa_UUID false;
      Column.mk "username" (sa_String 50) false;
      Column.mk "email" (sa_String 255) false;
      Column.mk "hashed_password" (sa_String 255) false;
      Column.mk "full_name" (sa_String 100) true;
      Column.mk "bio" (sa_String 500) true;
      Column.mk "profile_picture_url" (sa_String 255) true;
      Column.mk "last_login_at" sa_DateTime true;
      Column.mk "failed_login_attempts" sa_Integer true;
      Column.mk "created_at" sa_DateTime false;
      Column.mk "updated_at" sa_DateTime false ]
    [ PrimaryKeyConstraint ["id"];
      UniqueConstraint ["email"];
      UniqueConstraint ["username"] ].

(** Alembic's [op.create_table] and [op.drop_table] on the catalogue of a
    database, a map from table names to definitions: creating a table that
    exists and dropping one that does not are errors of the database. *)
Definition create_table (name : string) (table : Table.t)
  : M (gmap string Table.t) () :=
  λ catalogue,
    match catalogue !! name with
    | Some _ => (Raise (StoreError "relation already exists"), catalogue)
    | None => (Return (), <[name := table]> catalogue)
    end.

Definition drop_table (name : string) : M (gmap string Table.t) () :=
  λ catalogue,
    match catalogue !! name with
    | Some _ => (Return (), delete name catalogue)
    | None => (Raise (StoreError "table does not exist"), catalogue)
    end.

Definition upgrade : M (gmap string Table.t) () :=
  create_table "users" users_table.

Definition downgrade : M (gmap string Table.t) () :=
  drop_table "users".

(** The value of a column of a row. *)
Inductive value : Type :=
| Null
| Text (s : string)
| Int (z : Z).

Definition nullable_text (o : option string) : value :=
  match o with Some s => Text s | None => Null end.

Definition nullable_int (o : option Z) : value :=
  match o with Some z => Int z | None => Null end.

Definition column_value (column : string) (u : User.t) : value :=
  if decide (column = "id") then Text (User.id u)
  else if decide (column = "username") then Text (User.username u)
  else if decide (column = "email") then Text (User.email u)
  else if decide (column = "hashed_password") then Text (User.hashed_password u)
  else if decide (column = "full_name") then nullable_text (User.full_name u)
  else if decide (column = "bio") then nullable_text (User.bio u)
  else if decide (column = "profile_picture_url")
       then nullable_text (User.profile_picture_url u)
  else if decide (column = "last_login_at")
       then nullable_int (User.last_login_at u)
  else if decide (column = "failed_login_attempts")
       then nullable_int (User.failed_login_attempts u)
  else if decide (column = "created_at") then Int (User.created_at u)
  else if decide (column = "updated_at") then Int (User.updated_at u)
  else Null.

Definition constraint_columns (c : Constraint) : list string :=
  match c with
  | PrimaryKeyConstraint columns => columns
  | UniqueConstraint columns => columns
  end.

(** A table satisfies a key constraint when no two rows agree on all of
    its columns (none of the key columns of [users] is nullable). *)
Definition satisfies (rows : list User.t) (c : Constraint) : Prop :=
  NoDup ((λ u, (λ column, column_value column u) <$> constraint_columns c)
           <$> rows).

(** The rows satisfy every constraint the migration declares. *)
Definition constraints_hold (rows : list User.t) : Prop :=
  Forall (satisfies rows) (Table.constraints users_table).

(** A catalogue with one unrelated table. *)
Definition sample_catalogue : gmap string Table.t :=
  {[ "alembic_version" :=
       Table.mk [Column.mk "version_num" (sa_String 32) false]
                [PrimaryKeyConstraint ["version_num"]] ]}.

(** The rewriting of one row that [SpecStore.update] maps over the table. *)
Definition rewrite_row (env : Env) (user_id : UUID)
    (fields : gmap string (option string)) (r : User.t) : User.t :=
  if SpecStore.has_id user_id r then SpecStore.apply_update env fields r
  else r.

(** ** Page arithmetic of [list_users] *)

Lemma floordiv_zero {S} (a : Z) (s : S) :
  floordiv a 0 s = (Raise ZeroDivisionError, s).
Proof. reflexivity. Qed.

Lemma floordiv_nonzero {S} (a b : Z) (s : S) :
  b ≠ 0%Z → floordiv a b s = (Return (a / b)%Z, s).
Proof. intros Hb. unfold floordiv. destruct (decide (b = 0)%Z); [lia | reflexivity]. Qed.

Lemma ceil_div_formula (n d : Z) :
  (0 < d)%Z → is_ceil_div n d ((n + d - 1) / d).
Proof.
  intros Hd. unfold is_ceil_div.
  pose proof (Z.div_mod (n + d - 1) d ltac:(lia)) as Hdm.
  pose proof (Z.mod_pos_bound (n + d - 1) d Hd) as Hm.
  nia.
Qed.

Section ListUsersArithmetic.
Context {DB : Type} `{!UserService.Ops DB}.
Variables (request : Request.t) (skip limit : Z) (token : string).
Variables (db db1 db2 : DB) (total_users : Z) (users : list User.t).
Hypothesis Hcount : UserService.count db = (Return total_users, db1).
Hypothesis Hlist : UserService.list_users skip limit db1 = (Return users, db2).

(** With both store calls answered, a zero [limit] takes the handler to
    the division of line 161. *)
Lemma list_users_zero_limit :
  limit = 0%Z →
  list_users request skip limit token db = (Raise ZeroDivisionError, db2).
Proof.
  intros ->. unfold list_users, bind. rewrite Hcount, Hlist.
  reflexivity.
Qed.

Lemma list_users_returns :
  limit ≠ 0%Z →
  list_users request skip limit token db =
    (Return
       (UserListResponse.mk
          ((λ user, UserResponse.model_construct
                      (User.id user) (User.username user) (User.email user)
                      (User.last_login_at user) (User.created_at user)
                      (User.updated_at user)
                      (create_user_links (User.id user) request)) <$> users)
          (EnhancedPagination.mk
             (skip / limit + 1)%Z limit total_users
             ((total_users + limit - 1) / limit)%Z
             (generate_pagination_links request skip limit total_users))),
     db2).
Proof.
  intros Hl. unfold list_users, bind. rewrite Hcount, Hlist.
  rewrite !floordiv_nonzero by done. reflexivity.
Qed.
End ListUsersArithmetic.

(** C1: a list request with [limit = 0] is not rejected with a validation
    error: on every table, whatever [skip] is, the handler performs both
    store calls and the link generation, and then raises
    [ZeroDivisionError] at the page-number division; the table is left as
    it was. *)
Theorem list_users_limit_zero_raises_ZeroDivisionError
    (env : Env) (rows : SpecStore.Store) (request : Request.t) (skip : Z)
    (token : string) :
  list_users (H := SpecStore.ops env) request skip 0 token rows
  = (Raise ZeroDivisionError, rows).
Proof.
  eapply (list_users_zero_limit (H := SpecStore.ops env)); reflexivity.
Qed.

(** C3: once the store has answered [count] with [total_users >= 0] and the
    page query, a list request with [skip >= 0] and [limit > 0] returns a
    response whose page number is [skip // limit + 1] (so the page holds
    offset [skip]) and whose total pages is the ceiling of
    [total_users / limit]. *)
Theorem list_users_page_and_total_pages
    {DB : Type} `{!UserService.Ops DB}
    (request : Request.t) (skip limit : Z) (token : string)
    (db db1 db2 : DB) (total_users : Z) (users : list User.t) :
  UserService.count db = (Return total_users, db1) →
  UserService.list_users skip limit db1 = (Return users, db2) →
  (0 ≤ skip)%Z → (0 < limit)%Z → (0 ≤ total_users)%Z →
  ∃ resp : UserListResponse.t,
    list_users request skip limit token db = (Return resp, db2)
    ∧ let p := UserListResponse.pagination resp in
      EnhancedPagination.page p = (skip / limit + 1)%Z
      ∧ ((EnhancedPagination.page p - 1) * limit ≤ skip
         < EnhancedPagination.page p * limit)%Z
      ∧ is_ceil_div total_users limit (EnhancedPagination.total_pages p)
      ∧ EnhancedPagination.per_page p = limit
      ∧ EnhancedPagination.total_items p = total_users.
Proof.
  intros Hcount Hlist Hskip Hlimit Htotal.
  eexists. split.
  { apply (list_users_returns request skip limit token _ _ _ _ _ Hcount Hlist).
    lia. }
  cbn. repeat split; try apply ceil_div_formula; try done.
  - pose proof (Z.mul_div_le skip limit Hlimit). lia.
  - pose proof (Z.div_mod skip limit ltac:(lia)).
    pose proof (Z.mod_pos_bound skip limit Hlimit). nia.
Qed.

(** The scenario of C3: 25 stored users, [skip = 20], [limit = 10] gives
    page 3 of 3 (and the five remaining items). *)
Lemma list_users_page_and_total_pages_witness :
  ∃ resp : UserListResponse.t,
    list_users (H := SpecStore.ops sample_env) sample_request 20 10 "token-a"
      (sample_store 25) = (Return resp, sample_store 25)
    ∧ EnhancedPagination.page (UserListResponse.pagination resp) = 3%Z
    ∧ EnhancedPagination.total_pages (UserListResponse.pagination resp) = 3%Z
    ∧ length (UserListResponse.items resp) = 5.
Proof.
  destruct (list_users_page_and_total_pages (H := SpecStore.ops sample_env)
              sample_request 20 10 "token-a"
              (sample_store 25) (sample_store 25) (sample_store 25) 25
              (take 10 (drop 20 (sample_store 25))))
    as (resp & Hrun & Hpage & _ & Hceil & _);
    [reflexivity | reflexivity | lia | lia | lia |].
  exists resp. split; [exact Hrun|].
  split; [rewrite Hpage; reflexivity|].
  split; [unfold is_ceil_div in Hceil; lia|].
  pose proof (list_users_returns (H := SpecStore.ops sample_env)
                sample_request 20 10 "token-a"
                (sample_store 25) (sample_store 25) (sample_store 25) 25
                (take 10 (drop 20 (sample_store 25))) eq_refl eq_refl
                ltac:(lia)) as Hrun'.
  rewrite Hrun in Hrun'. injection Hrun' as ->. reflexivity.
Defined.

(** ** Pagination links *)

Section PaginationLinks.
Variables (request : Request.t) (skip limit total_items : Z).

Lemma pagination_links_self :
  generate_pagination_links request skip limit total_items !! "self"
  = Some (page_url request skip limit).
Proof.
  unfold generate_pagination_links.
  repeat case_decide; by simplify_map_eq.
Qed.

Lemma pagination_links_next :
  generate_pagination_links request skip limit total_items !! "next"
  = if decide (skip + limit < total_items)%Z
    then Some (page_url request (skip + limit) limit) else None.
Proof.
  unfold generate_pagination_links.
  repeat case_decide; by simplify_map_eq.
Qed.

Lemma pagination_links_previous :
  generate_pagination_links request skip limit total_items !! "previous"
  = if decide (skip > 0)%Z
    then Some (page_url request (Z.max (skip - limit) 0) limit) else None.
Proof.
  unfold generate_pagination_links.
  repeat case_decide; by simplify_map_eq.
Qed.

(** No other relation is ever generated. *)
Lemma pagination_links_keys (rel : string) :
  is_Some (generate_pagination_links request skip limit total_items !! rel) →
  rel = "self" ∨ rel = "next" ∨ rel = "previous".
Proof.
  unfold generate_pagination_links. intros [href Hrel].
  repeat case_decide;
    repeat (apply lookup_insert_Some in Hrel as [[<- _]|[_ Hrel]]; [by auto|]);
    apply lookup_singleton_Some in Hrel as [<- _]; auto.
Qed.
End PaginationLinks.

(** C5: for [skip >= 0], [limit > 0] and a count [total_users >= 0], the
    links of the pagination block of a list response always hold [self];
    they hold [next] exactly when [skip + limit < total_users], pointing at
    offset [skip + limit]; and they hold [previous] exactly when
    [skip > 0], pointing at the offset [max (skip - limit) 0], which is
    never negative. *)
Theorem list_users_pagination_links
    {DB : Type} `{!UserService.Ops DB}
    (request : Request.t) (skip limit : Z) (token : string)
    (db db1 db2 : DB) (total_users : Z) (users : list User.t) :
  UserService.count db = (Return total_users, db1) →
  UserService.list_users skip limit db1 = (Return users, db2) →
  (0 ≤ skip)%Z → (0 < limit)%Z → (0 ≤ total_users)%Z →
  ∃ resp : UserListResponse.t,
    list_users request skip limit token db = (Return resp, db2)
    ∧ let links :=
        EnhancedPagination.links (UserListResponse.pagination resp) in
      links !! "self" = Some (page_url request skip limit)
      ∧ (is_Some (links !! "next") ↔ (skip + limit < total_users)%Z)
      ∧ (∀ href, links !! "next" = Some href →
           href = page_url request (skip + limit) limit)
      ∧ (is_Some (links !! "previous") ↔ (skip > 0)%Z)
      ∧ (∀ href, links !! "previous" = Some href →
           ∃ offset : Z,
             href = page_url request offset limit
             ∧ offset = Z.max (skip - limit) 0 ∧ (0 ≤ offset)%Z).
Proof.
  intros Hcount Hlist Hskip Hlimit Htotal.
  eexists. split.
  { apply (list_users_returns request skip limit token _ _ _ _ _ Hcount Hlist).
    lia. }
  cbn [UserListResponse.pagination EnhancedPagination.links].
  rewrite pagination_links_self, pagination_links_next,
    pagination_links_previous.
  split; [done|].
  split; [case_decide; split; [done | eauto | by intros [? ?] | lia]|].
  split; [intros href; case_decide; by intros [= <-]|].
  split; [case_decide; split; [done | eauto | by intros [? ?] | lia]|].
  intros href. case_decide; [|done]. intros [= <-].
  eexists. split; [done|]. lia.
Qed.

(** The scenario of the specification: 25 users, [skip = 20], [limit = 10]
    has no [next] link and a [previous] link to [skip = 10]. *)
Lemma list_users_pagination_links_witness :
  ∃ resp : UserListResponse.t,
    list_users (H := SpecStore.ops sample_env) sample_request 20 10 "token-a"
      (sample_store 25) = (Return resp, sample_store 25)
    ∧ let links :=
        EnhancedPagination.links (UserListResponse.pagination resp) in
      links !! "self" = Some "http://testserver/users/?skip=20&limit=10"
      ∧ links !! "next" = None
      ∧ links !! "previous" = Some "http://testserver/users/?skip=10&limit=10".
Proof.
  destruct (list_users_pagination_links (H := SpecStore.ops sample_env)
              sample_request 20 10 "token-a"
              (sample_store 25) (sample_store 25) (sample_store 25) 25
              (take 10 (drop 20 (sample_store 25))))
    as (resp & Hrun & Hself & Hnext & _ & Hprev & Hoff);
    [reflexivity | reflexivity | lia | lia | lia |].
  exists resp. split; [exact Hrun|]. cbn zeta in *.
  split; [rewrite Hself; reflexivity|].
  split.
  - destruct (EnhancedPagination.links (UserListResponse.pagination resp)
                !! "next") as [href|] eqn:E; [|reflexivity].
    assert (20 + 10 < 25)%Z by (apply Hnext; eauto). lia.
  - destruct (proj2 Hprev ltac:(lia)) as [href Hhref].
    destruct (Hoff href Hhref) as (offset & -> & -> & _).
    rewrite Hhref. reflexivity.
Defined.

(** ** Facts about the modelled store *)

Section StoreFacts.
Import SpecStore.

Lemma find_None_iff {A} (p : A → bool) (l : list A) :
  List.find p l = None ↔ ∀ x, x ∈ l → p x = false.
Proof.
  induction l as [|a l IH]; cbn.
  - split; [|done]. intros _ x Hx. by apply elem_of_nil in Hx.
  - destruct (p a) eqn:Ha.
    + split; [done|]. intros Hall.
      specialize (Hall a ltac:(left)). congruence.
    + rewrite IH. split.
      * intros Hall x [->|Hx]%elem_of_cons; auto.
      * intros Hall x Hx. apply Hall. by right.
Qed.

Lemma find_Some_elem {A} (p : A → bool) (l : list A) (x : A) :
  List.find p l = Some x → x ∈ l ∧ p x = true.
Proof.
  intros Hf. apply find_some in Hf as [Hin Hp].
  split; [by apply list_elem_of_In | done].
Qed.

Lemma find_is_Some {A} (p : A → bool) (l : list A) (x : A) :
  x ∈ l → p x = true → is_Some (List.find p l).
Proof.
  intros Hin Hp. destruct (List.find p l) eqn:E; [eauto|].
  rewrite find_None_iff in E. specialize (E x Hin). congruence.
Qed.

Lemma has_id_true (user_id : UUID) (u : User.t) :
  has_id user_id u = true ↔ User.id u = user_id.
Proof. unfold has_id. by rewrite bool_decide_eq_true. Qed.

Lemma has_username_true (name : string) (u : User.t) :
  has_username name u = true ↔ User.username u = name.
Proof. unfold has_username. by rewrite bool_decide_eq_true. Qed.

Lemma has_email_true (e : string) (u : User.t) :
  has_email e u = true ↔ User.email u = e.
Proof. unfold has_email. by rewrite bool_decide_eq_true. Qed.

(** A lookup by identifier misses exactly when no row carries it. *)
Lemma find_id_None (rows : Store) (user_id : UUID) :
  List.find (has_id user_id) rows = None
  ↔ ¬ ∃ u, u ∈ rows ∧ User.id u = user_id.
Proof.
  rewrite find_None_iff. split.
  - intros Hall (u & Hin & Hid). apply has_id_true in Hid.
    specialize (Hall u Hin). congruence.
  - intros Hno u Hin. destruct (has_id user_id u) eqn:E; [|done].
    exfalso. apply Hno. exists u. by rewrite <- has_id_true.
Qed.

Lemma find_username_None (rows : Store) (name : string) :
  List.find (has_username name) rows = None
  ↔ ¬ ∃ u, u ∈ rows ∧ User.username u = name.
Proof.
  rewrite find_None_iff. split.
  - intros Hall (u & Hin & Hn). apply has_username_true in Hn.
    specialize (Hall u Hin). congruence.
  - intros Hno u Hin. destruct (has_username name u) eqn:E; [|done].
    exfalso. apply Hno. exists u. by rewrite <- has_username_true.
Qed.

Lemma existsb_has_id (rows : Store) (user_id : UUID) :
  existsb (has_id user_id) rows = true
  ↔ ∃ u, u ∈ rows ∧ User.id u = user_id.
Proof.
  rewrite existsb_exists. split; intros (u & Hin & Hid); exists u.
  - by rewrite list_elem_of_In, <- has_id_true.
  - by rewrite <- list_elem_of_In, has_id_true.
Qed.

(** Deleting an identifier no row carries keeps the table. *)
Lemma filter_absent_id (rows : Store) (user_id : UUID) :
  (¬ ∃ u, u ∈ rows ∧ User.id u = user_id) →
  List.filter (λ r, negb (has_id user_id r)) rows = rows.
Proof.
  induction rows as [|r rows IH]; [done|]. intros Hno. cbn.
  destruct (has_id user_id r) eqn:E.
  - exfalso. apply Hno. exists r. split; [left | by apply has_id_true].
  - cbn. f_equal. apply IH. intros (u & Hin & Hid).
    apply Hno. exists u. split; [by right | done].
Qed.

(** Under the primary-key constraint, deleting an identifier takes out
    the one row that carries it and keeps the others in order. *)
Lemma filter_unique_id (l1 l2 : Store) (u : User.t) :
  pk_unique (l1 ++ u :: l2) →
  List.filter (λ r, negb (has_id (User.id u) r)) (l1 ++ u :: l2) = l1 ++ l2.
Proof.
  unfold pk_unique. rewrite fmap_app, fmap_cons.
  intros Hnd. apply NoDup_app in Hnd as (_ & Hl1 & Hnd).
  apply NoDup_cons in Hnd as [Hl2 _].
  rewrite List.filter_app. cbn.
  assert (has_id (User.id u) u = true) as -> by by apply has_id_true.
  cbn. f_equal; apply filter_absent_id; intros (r & Hin & Hid).
  - apply (Hl1 (User.id r)); [by apply list_elem_of_fmap_2|].
    rewrite Hid. left.
  - apply Hl2. rewrite <- Hid. by apply list_elem_of_fmap_2.
Qed.
End StoreFacts.

(** ** Status codes of the handlers *)

Lemma create_user_links_lookup (user_id : UUID) (request : Request.t) :
  create_user_links user_id request !! "self"
    = Some (url_for_user request user_id)
  ∧ create_user_links user_id request !! "update"
    = Some (url_for_user request user_id)
  ∧ create_user_links user_id request !! "delete"
    = Some (url_for_user request user_id).
Proof. unfold create_user_links. repeat split; by simplify_map_eq. Qed.

(** C7: [get_user] raises 404 exactly when no row carries the identifier;
    when a row does, it returns the identifier, username, email, last
    login and both timestamps of such a row, with the [self], [update] and
    [delete] links of that identifier. The table is not touched. *)
Theorem get_user_not_found_iff_absent
    (env : Env) (rows : SpecStore.Store) (user_id : UUID)
    (request : Request.t) (token : string) :
  (get_user (H := SpecStore.ops env) user_id request token rows
   = (Raise (HTTPException HTTP_404_NOT_FOUND "User not found"), rows)
   ↔ ¬ ∃ u, u ∈ rows ∧ User.id u = user_id)
  ∧ ((∃ u, u ∈ rows ∧ User.id u = user_id) →
     ∃ (u : User.t) (resp : UserResponse.t),
       u ∈ rows ∧ User.id u = user_id
       ∧ get_user (H := SpecStore.ops env) user_id request token rows
         = (Return resp, rows)
       ∧ UserResponse.id resp = user_id
       ∧ UserResponse.username resp = User.username u
       ∧ UserResponse.email resp = User.email u
       ∧ UserResponse.last_login_at resp = User.last_login_at u
       ∧ UserResponse.created_at resp = User.created_at u
       ∧ UserResponse.updated_at resp = User.updated_at u
       ∧ UserResponse.links resp !! "self"
         = Some (url_for_user request user_id)
       ∧ UserResponse.links resp !! "update"
         = Some (url_for_user request user_id)
       ∧ UserResponse.links resp !! "delete"
         = Some (url_for_user request user_id)).
Proof.
  unfold get_user, bind. cbn.
  destruct (List.find (SpecStore.has_id user_id) rows) as [u|] eqn:Hfind.
  - apply find_Some_elem in Hfind as [Hin Hid].
    apply has_id_true in Hid. split.
    + split; [done|]. intros Hno. exfalso. apply Hno. eauto.
    + intros _. eexists u, _. split; [done|]. split; [done|].
      split; [reflexivity|]. cbn. rewrite Hid.
      pose proof (create_user_links_lookup user_id request) as (?&?&?).
      by repeat split.
  - apply find_id_None in Hfind. split; [done|].
    intros Hex. by destruct Hfind.
Qed.

Lemma get_user_not_found_iff_absent_witness :
  get_user (H := SpecStore.ops sample_env) "id-7" sample_request "token-a"
    (sample_store 3)
  = (Raise (HTTPException 404 "User not found"), sample_store 3)
  ∧ ∃ resp : UserResponse.t,
      get_user (H := SpecStore.ops sample_env) "id-1" sample_request "token-a"
        (sample_store 3) = (Return resp, sample_store 3)
      ∧ UserResponse.username resp = "user1"
      ∧ UserResponse.links resp !! "self" = Some "http://testserver/users/id-1".
Proof.
  split.
  - apply (get_user_not_found_iff_absent sample_env (sample_store 3) "id-7").
    intros (u & Hin & Hid). vm_compute in Hin.
    repeat (apply elem_of_cons in Hin as [->|Hin]; [discriminate Hid|]).
    by apply elem_of_nil in Hin.
  - destruct (proj2 (get_user_not_found_iff_absent sample_env (sample_store 3)
                       "id-1" sample_request "token-a"))
      as (u & resp & Hin & Hid & Hrun & _ & Hname & _ & _ & _ & _ & Hself & _).
    { exists (sample_user 1). split; [|reflexivity].
      vm_compute. right. left. }
    exists resp. split; [exact Hrun|]. split; [|exact Hself].
    rewrite Hname. vm_compute in Hin.
    repeat (apply elem_of_cons in Hin as [->|Hin];
            [first [reflexivity | discriminate Hid]|]).
    by apply elem_of_nil in Hin.
Defined.

(** C8: [delete_user] raises 404 when no row carries the identifier and
    then leaves the table, hence its row count, as it was; when a row of a
    table with unique identifiers carries it, the handler answers 204 with
    no content and the table is the old one without that row. *)
Theorem delete_user_not_found_or_removed
    (env : Env) (rows : SpecStore.Store) (user_id : UUID) (token : string) :
  ((¬ ∃ u, u ∈ rows ∧ User.id u = user_id) →
   ∃ rows' : SpecStore.Store,
     delete_user (H := SpecStore.ops env) user_id token rows
     = (Raise (HTTPException HTTP_404_NOT_FOUND "User not found"), rows')
     ∧ rows' = rows ∧ length rows' = length rows)
  ∧ (∀ u : User.t,
       SpecStore.pk_unique rows → u ∈ rows → User.id u = user_id →
       ∃ l1 l2 : SpecStore.Store,
         rows = l1 ++ u :: l2
         ∧ delete_user (H := SpecStore.ops env) user_id token rows
           = (Return (Response.mk HTTP_204_NO_CONTENT None), l1 ++ l2)
         ∧ S (length (l1 ++ l2)) = length rows
         ∧ ¬ ∃ r, r ∈ l1 ++ l2 ∧ User.id r = user_id).
Proof.
  unfold delete_user, bind. cbn. split.
  - intros Hno. exists rows.
    destruct (existsb (SpecStore.has_id user_id) rows) eqn:E.
    { apply existsb_has_id in E. done. }
    cbn. by rewrite filter_absent_id.
  - intros u Hpk Hin <-.
    apply list_elem_of_split in Hin as (l1 & l2 & ->).
    exists l1, l2. split; [done|].
    assert (existsb (SpecStore.has_id (User.id u)) (l1 ++ u :: l2) = true)
      as -> .
    { apply existsb_has_id. exists u. split; [|done].
      apply elem_of_app. right. left. }
    cbn. rewrite filter_unique_id by done.
    split; [done|]. split; [rewrite !length_app; cbn; lia|].
    intros (r & Hr & Hid). unfold SpecStore.pk_unique in Hpk.
    rewrite fmap_app, fmap_cons in Hpk.
    apply NoDup_app in Hpk as (_ & Hl1 & Hpk).
    apply NoDup_cons in Hpk as [Hl2 _].
    apply elem_of_app in Hr as [Hr|Hr].
    + apply (Hl1 (User.id r)); [by apply list_elem_of_fmap_2|].
      rewrite Hid. left.
    + apply Hl2. rewrite <- Hid. by apply list_elem_of_fmap_2.
Qed.

Lemma delete_user_not_found_or_removed_witness :
  delete_user (H := SpecStore.ops sample_env) "id-7" "token-a" (sample_store 3)
  = (Raise (HTTPException 404 "User not found"), sample_store 3)
  ∧ delete_user (H := SpecStore.ops sample_env) "id-1" "token-a"
      (sample_store 3)
    = (Return (Response.mk 204 None), [sample_user 0; sample_user 2]).
Proof.
  pose proof (delete_user_not_found_or_removed sample_env (sample_store 3))
    as Hdel.
  split.
  - destruct (proj1 (Hdel "id-7" "token-a")) as (rows' & Hrun & -> & _);
      [|exact Hrun].
    intros (u & Hin & Hid). vm_compute in Hin.
    repeat (apply elem_of_cons in Hin as [->|Hin]; [discriminate Hid|]).
    by apply elem_of_nil in Hin.
  - destruct (proj2 (Hdel "id-1" "token-a") (sample_user 1))
      as (l1 & l2 & Hsplit & Hrun & _).
    + apply (bool_decide_unpack _). vm_compute. exact I.
    + vm_compute. right. left.
    + reflexivity.
    + rewrite Hrun. f_equal.
      change (sample_store 3)
        with ([sample_user 0] ++ sample_user 1 :: [sample_user 2]) in Hsplit.
      destruct l1 as [|a [|b [|c l1]]]; cbn in Hsplit.
      * injection Hsplit as Ha _. vm_compute in Ha. discriminate Ha.
      * injection Hsplit as <- <-. reflexivity.
      * injection Hsplit as _ _ Hc _. vm_compute in Hc. discriminate Hc.
      * injection Hsplit as _ _ _ Hnil. by destruct l1.
Defined.

(** ** Creating a user *)

Section CreateUser.
Context {DB : Type} `{!UserService.Ops DB}.
Variables (user : UserCreate.t) (request : Request.t) (token : string).
Variables (db db1 : DB).

(** A hit of the pre-check ends the handler before [create] is awaited:
    the session is the one the lookup left. *)
Lemma create_user_precheck_hit (existing : User.t) :
  UserService.get_by_username (UserCreate.username user) db
  = (Return (Some existing), db1) →
  create_user user request token db
  = (Raise (HTTPException HTTP_400_BAD_REQUEST "Username already exists"),
     db1).
Proof. intros Hget. unfold create_user, bind. by rewrite Hget. Qed.

(** After a miss of the pre-check the outcome is that of [create]: the
    new user, 500 when it returns nothing, or whatever it raises. *)
Lemma create_user_precheck_miss :
  UserService.get_by_username (UserCreate.username user) db
  = (Return None, db1) →
  create_user user request token db
  = match UserService.create user db1 with
    | (Return (Some created_user), db2) =>
        (Return (UserResponse.model_construct
                   (User.id created_user) (User.username created_user)
                   (User.email created_user)
                   (User.last_login_at created_user)
                   (User.created_at created_user)
                   (User.updated_at created_user)
                   (create_user_links (User.id created_user) request)),
         db2)
    | (Return None, db2) =>
        (Raise (HTTPException HTTP_500_INTERNAL_SERVER_ERROR
                  "Failed to create user"), db2)
    | (Raise e, db2) => (Raise e, db2)
    end.
Proof.
  intros Hget. unfold create_user, bind. rewrite Hget.
  by destruct (UserService.create user db1) as [[[created|]|e] db2].
Qed.
End CreateUser.

(** C2: a create request whose username is that of a stored user is
    answered 400 and the table stays as it was; and, for any data-access
    implementation, a create whose pre-check finds nothing and whose
    insertion returns nothing is answered 500. *)
Theorem create_user_conflict_and_internal :
  (∀ (env : Env) (rows : SpecStore.Store) (user : UserCreate.t)
     (request : Request.t) (token : string),
     (∃ u, u ∈ rows ∧ User.username u = UserCreate.username user) →
     create_user (H := SpecStore.ops env) user request token rows
     = (Raise (HTTPException HTTP_400_BAD_REQUEST "Username already exists"),
        rows))
  ∧ (∀ (DB : Type) (ops : UserService.Ops DB) (db db1 db2 : DB)
       (user : UserCreate.t) (request : Request.t) (token : string),
       UserService.get_by_username (UserCreate.username user) db
       = (Return None, db1) →
       UserService.create user db1 = (Return None, db2) →
       create_user user request token db
       = (Raise (HTTPException HTTP_500_INTERNAL_SERVER_ERROR
                   "Failed to create user"), db2)).
Proof.
  split.
  - intros env rows user request token (u & Hin & Hname).
    destruct (find_is_Some (SpecStore.has_username (UserCreate.username user))
                rows u Hin) as [existing Hfind].
    { by apply has_username_true. }
    apply (create_user_precheck_hit (H := SpecStore.ops env)) with existing.
    cbn. unfold SpecStore.get_by_username. by rewrite Hfind.
  - intros DB ops db db1 db2 user request token Hget Hcreate.
    rewrite (create_user_precheck_miss user request token db db1 Hget).
    by rewrite Hcreate.
Qed.

Lemma create_user_conflict_and_internal_witness :
  create_user (H := SpecStore.ops sample_env)
    (sample_create "user1" "new@example.com") sample_request "token-a"
    (sample_store 3)
  = (Raise (HTTPException 400 "Username already exists"), sample_store 3)
  ∧ create_user (H := SpecStore.ops sample_env)
      (sample_create "fresh" "user1@example.com") sample_request "token-a"
      (sample_store 3)
    = (Raise (HTTPException 500 "Failed to create user"), sample_store 3).
Proof.
  split.
  - apply (proj1 create_user_conflict_and_internal).
    exists (sample_user 1). split; [|reflexivity]. vm_compute. right. left.
  - apply (proj2 create_user_conflict_and_internal SpecStore.Store
             (SpecStore.ops sample_env) (sample_store 3) (sample_store 3)).
    + reflexivity.
    + reflexivity.
Defined.

(** C10: the pre-check looks at the username only. For any data-access
    implementation, once the lookup by username finds nothing the 400
    branch is behind: the handler returns the created user, answers 500
    when [create] returns nothing, or lets the error [create] raised
    through. On a table that enforces unique emails, a create with a fresh
    username and the email of a stored user is answered 500 and inserts
    nothing. *)
Theorem create_user_duplicate_email_not_conflict :
  (∀ (DB : Type) (ops : UserService.Ops DB) (db db1 : DB)
     (user : UserCreate.t) (request : Request.t) (token : string),
     UserService.get_by_username (UserCreate.username user) db
     = (Return None, db1) →
     (∃ resp db2, create_user user request token db = (Return resp, db2))
     ∨ (∃ db2, UserService.create user db1 = (Return None, db2)
          ∧ create_user user request token db
            = (Raise (HTTPException HTTP_500_INTERNAL_SERVER_ERROR
                        "Failed to create user"), db2))
     ∨ (∃ e db2, UserService.create user db1 = (Raise e, db2)
          ∧ create_user user request token db = (Raise e, db2)))
  ∧ (∀ (env : Env) (rows : SpecStore.Store) (user : UserCreate.t)
       (request : Request.t) (token : string),
       (¬ ∃ u, u ∈ rows ∧ User.username u = UserCreate.username user) →
       (∃ u, u ∈ rows ∧ User.email u = UserCreate.email user) →
       create_user (H := SpecStore.ops env) user request token rows
       = (Raise (HTTPException HTTP_500_INTERNAL_SERVER_ERROR
                   "Failed to create user"), rows)
       ∧ create_user (H := SpecStore.ops env) user request token rows
         ≠ (Raise (HTTPException HTTP_400_BAD_REQUEST
                     "Username already exists"), rows)).
Proof.
  split.
  - intros DB ops db db1 user request token Hget.
    rewrite (create_user_precheck_miss user request token db db1 Hget).
    destruct (UserService.create user db1) as [[[created|]|e] db2]; eauto 8.
  - intros env rows user request token Hfresh (u & Hin & Hmail).
    apply find_username_None in Hfresh.
    rewrite (create_user_precheck_miss (H := SpecStore.ops env)
               user request token rows rows)
      by (cbn; unfold SpecStore.get_by_username; by rewrite Hfresh).
    cbn. unfold SpecStore.create.
    assert (SpecStore.violates_unique (SpecStore.new_row env user) rows = true)
      as ->; [|done].
    apply existsb_exists. exists u. split; [by apply list_elem_of_In|].
    apply orb_true_intro. right. by apply has_email_true.
Qed.

Lemma create_user_duplicate_email_not_conflict_witness :
  create_user (H := SpecStore.ops sample_env)
    (sample_create "fresh" "user1@example.com") sample_request "token-a"
    (sample_store 3)
  = (Raise (HTTPException 500 "Failed to create user"), sample_store 3)
  ∧ ((∃ resp db2,
        create_user (H := SpecStore.ops sample_env)
          (sample_create "fresh" "fresh@example.com") sample_request "token-a"
          (sample_store 3) = (Return resp, db2))
     ∨ (∃ db2,
          UserService.create (Ops := SpecStore.ops sample_env)
            (sample_create "fresh" "fresh@example.com") (sample_store 3)
          = (Return None, db2)
          ∧ create_user (H := SpecStore.ops sample_env)
              (sample_create "fresh" "fresh@example.com") sample_request
              "token-a" (sample_store 3)
            = (Raise (HTTPException 500 "Failed to create user"), db2))
     ∨ (∃ e db2,
          UserService.create (Ops := SpecStore.ops sample_env)
            (sample_create "fresh" "fresh@example.com") (sample_store 3)
          = (Raise e, db2)
          ∧ create_user (H := SpecStore.ops sample_env)
              (sample_create "fresh" "fresh@example.com") sample_request
              "token-a" (sample_store 3) = (Raise e, db2))).
Proof.
  split.
  - apply (proj2 create_user_duplicate_email_not_conflict sample_env).
    + intros (u & Hin & Hname). vm_compute in Hin.
      repeat (apply elem_of_cons in Hin as [->|Hin]; [discriminate Hname|]).
      by apply elem_of_nil in Hin.
    + exists (sample_user 1). split; [|reflexivity]. vm_compute. right. left.
  - apply (proj1 create_user_duplicate_email_not_conflict SpecStore.Store
             (SpecStore.ops sample_env) (sample_store 3) (sample_store 3)).
    reflexivity.
Defined.

(** ** Partial update *)

Lemma model_dump_exclude_unset_lookup (user_update : UserUpdate.t) :
  let fs := UserUpdate.model_fields_set user_update in
  let d := model_dump_exclude_unset user_update in
  d !! "full_name"
    = (if decide ("full_name" ∈ fs)
       then Some (UserUpdate.full_name user_update) else None)
  ∧ d !! "bio"
    = (if decide ("bio" ∈ fs)
       then Some (UserUpdate.bio user_update) else None)
  ∧ d !! "profile_picture_url"
    = (if decide ("profile_picture_url" ∈ fs)
       then Some (UserUpdate.profile_picture_url user_update) else None).
Proof.
  cbn zeta. unfold model_dump_exclude_unset.
  repeat split; rewrite map_lookup_filter; cbn [list_to_map foldr fst snd uncurry];
    simplify_map_eq; cbn; case_decide.
  all: try by rewrite option_guard_True.
  all: by rewrite option_guard_False.
Qed.

Section UpdateFacts.
Import SpecStore.

Lemma fmap_absent_id (rows : Store) (user_id : UUID) (f : User.t → User.t) :
  (¬ ∃ u, u ∈ rows ∧ User.id u = user_id) →
  (λ r, if has_id user_id r then f r else r) <$> rows = rows.
Proof.
  induction rows as [|r rows IH]; [done|]. intros Hno. cbn.
  destruct (has_id user_id r) eqn:E.
  - exfalso. apply Hno. exists r. split; [left | by apply has_id_true].
  - f_equal. apply IH. intros (u & Hin & Hid).
    apply Hno. exists u. split; [by right | done].
Qed.

Lemma find_app_absent_id (l1 l : Store) (user_id : UUID) :
  (¬ ∃ u, u ∈ l1 ∧ User.id u = user_id) →
  List.find (has_id user_id) (l1 ++ l) = List.find (has_id user_id) l.
Proof.
  induction l1 as [|r l1 IH]; [done|]. intros Hno. cbn.
  destruct (has_id user_id r) eqn:E.
  - exfalso. apply Hno. exists r. split; [left | by apply has_id_true].
  - apply IH. intros (u & Hin & Hid).
    apply Hno. exists u. split; [by right | done].
Qed.

Lemma pk_unique_split (l1 l2 : Store) (u : User.t) :
  pk_unique (l1 ++ u :: l2) →
  (¬ ∃ r, r ∈ l1 ∧ User.id r = User.id u)
  ∧ (¬ ∃ r, r ∈ l2 ∧ User.id r = User.id u).
Proof.
  unfold pk_unique. rewrite fmap_app, fmap_cons.
  intros Hnd. apply NoDup_app in Hnd as (_ & Hl1 & Hnd).
  apply NoDup_cons in Hnd as [Hl2 _].
  split; intros (r & Hin & Hid).
  - apply (Hl1 (User.id r)); [by apply list_elem_of_fmap_2|].
    rewrite Hid. left.
  - apply Hl2. rewrite <- Hid. by apply list_elem_of_fmap_2.
Qed.

(** Under the primary-key constraint, the lookup finds the row and the
    update rewrites that row alone. *)
Lemma update_unique_row (env : Env) (l1 l2 : Store) (u : User.t)
    (fields : gmap string (option string)) :
  pk_unique (l1 ++ u :: l2) →
  update env (User.id u) fields (l1 ++ u :: l2)
  = (Return (Some (apply_update env fields u)),
     l1 ++ apply_update env fields u :: l2).
Proof.
  intros [Hl1 Hl2]%pk_unique_split. unfold update.
  rewrite find_app_absent_id by done. cbn.
  assert (has_id (User.id u) u = true) as -> by by apply has_id_true.
  rewrite fmap_app, fmap_cons.
  assert (has_id (User.id u) u = true) as -> by by apply has_id_true.
  by rewrite !fmap_absent_id.
Qed.
End UpdateFacts.

(** C4: updating a stored user of a table with unique identifiers returns
    a response and rewrites that row alone. Each profile field named by the
    payload takes the payload's value, a null included; each field the
    payload omits keeps its value, as do the identifier, username, email,
    password hash, last login, failed-login counter and creation time; and
    the update timestamp becomes the current time. *)
Theorem update_user_exclude_unset
    (env : Env) (rows : SpecStore.Store) (u : User.t)
    (user_update : UserUpdate.t) (request : Request.t) (token : string) :
  SpecStore.pk_unique rows → u ∈ rows →
  ∃ (resp : UserResponse.t) (u' : User.t) (l1 l2 : SpecStore.Store),
    rows = l1 ++ u :: l2
    ∧ update_user (H := SpecStore.ops env) (User.id u) user_update request
        token rows = (Return resp, l1 ++ u' :: l2)
    ∧ (let fs := UserUpdate.model_fields_set user_update in
       User.full_name u'
         = (if decide ("full_name" ∈ fs)
            then UserUpdate.full_name user_update else User.full_name u)
       ∧ User.bio u'
         = (if decide ("bio" ∈ fs)
            then UserUpdate.bio user_update else User.bio u)
       ∧ User.profile_picture_url u'
         = (if decide ("profile_picture_url" ∈ fs)
            then UserUpdate.profile_picture_url user_update
            else User.profile_picture_url u))
    ∧ (User.id u' = User.id u
       ∧ User.username u' = User.username u
       ∧ User.email u' = User.email u
       ∧ User.hashed_password u' = User.hashed_password u
       ∧ User.last_login_at u' = User.last_login_at u
       ∧ User.failed_login_attempts u' = User.failed_login_attempts u
       ∧ User.created_at u' = User.created_at u)
    ∧ User.updated_at u' = now env
    ∧ UserResponse.updated_at resp = now env.
Proof.
  intros Hpk Hin.
  apply list_elem_of_split in Hin as (l1 & l2 & ->).
  eexists _, (SpecStore.apply_update env
                (model_dump_exclude_unset user_update) u), l1, l2.
  split; [done|]. split.
  { unfold update_user, bind. cbn.
    rewrite update_unique_row by done. reflexivity. }
  pose proof (model_dump_exclude_unset_lookup user_update) as (Hf & Hb & Hp).
  cbn. unfold SpecStore.assign. rewrite Hf, Hb, Hp.
  clear Hf Hb Hp.
  split_and!; first [by destruct (decide _) | reflexivity].
Qed.

(** A payload naming [full_name] as null and [bio], omitting the picture:
    the name is cleared, the bio replaced, the picture kept. *)
Lemma update_user_exclude_unset_witness :
  ∃ (resp : UserResponse.t) (u' : User.t) (l1 l2 : SpecStore.Store),
    sample_store 3 = l1 ++ sample_user 1 :: l2
    ∧ update_user (H := SpecStore.ops sample_env) "id-1" sample_update
        sample_request "token-a" (sample_store 3)
      = (Return resp, l1 ++ u' :: l2)
    ∧ User.full_name u' = None
    ∧ User.bio u' = Some "new bio"
    ∧ User.profile_picture_url u' = Some "http://pics/1"
    ∧ User.updated_at u' = 1712556416%Z.
Proof.
  destruct (update_user_exclude_unset sample_env (sample_store 3)
              (sample_user 1) sample_update sample_request "token-a")
    as (resp & u' & l1 & l2 & Hsplit & Hrun & (Hf & Hb & Hp) & _ & Hupd & _).
  - apply (bool_decide_unpack _). vm_compute. exact I.
  - vm_compute. right. left.
  - exists resp, u', l1, l2. split; [exact Hsplit|]. split; [exact Hrun|].
    rewrite Hf, Hb, Hp, Hupd. repeat split.
Defined.

(** ** The bearer token *)

(** C9: for any data-access implementation and any session, each of the
    five routes answers 401 without touching the session when the request
    carries no bearer token; and two requests to the same application that
    both carry one, whatever the two tokens are, get the same outcome and
    leave the same session behind. *)
Theorem routes_require_token_and_ignore_its_value
    {DB : Type} `{!UserService.Ops DB} (db : DB)
    (user_id : UUID) (user_update : UserUpdate.t) (user : UserCreate.t)
    (skip limit : Z) :
  (∀ request : Request.t,
     Request.bearer request = None →
     let unauthorized {A} : outcome A * DB :=
       (Raise (HTTPException HTTP_401_UNAUTHORIZED "Not authenticated"), db) in
     GET_user request user_id db = unauthorized
     ∧ PUT_user request user_id user_update db = unauthorized
     ∧ DELETE_user request user_id db = unauthorized
     ∧ POST_users request user db = unauthorized
     ∧ GET_users request skip limit db = unauthorized)
  ∧ (∀ (r1 r2 : Request.t) (t1 t2 : string),
       Request.base_url r1 = Request.base_url r2 →
       Request.bearer r1 = Some t1 → Request.bearer r2 = Some t2 →
       GET_user r1 user_id db = GET_user r2 user_id db
       ∧ PUT_user r1 user_id user_update db = PUT_user r2 user_id user_update db
       ∧ DELETE_user r1 user_id db = DELETE_user r2 user_id db
       ∧ POST_users r1 user db = POST_users r2 user db
       ∧ GET_users r1 skip limit db = GET_users r2 skip limit db).
Proof.
  split.
  - intros request Hnone. cbn zeta.
    unfold GET_user, PUT_user, DELETE_user, POST_users, GET_users,
      oauth2_scheme, bind.
    rewrite Hnone. by repeat split.
  - intros [base1 b1] [base2 b2] t1 t2. cbn. intros -> -> ->.
    unfold GET_user, PUT_user, DELETE_user, POST_users, GET_users,
      oauth2_scheme, bind. cbn.
    by repeat split.
Qed.

Lemma routes_require_token_and_ignore_its_value_witness :
  GET_user (H := SpecStore.ops sample_env) sample_request_anonymous "id-1"
    (sample_store 3)
  = (Raise (HTTPException 401 "Not authenticated"), sample_store 3)
  ∧ GET_users (H := SpecStore.ops sample_env) sample_request 0 2
      (sample_store 3)
    = GET_users (H := SpecStore.ops sample_env) sample_request_b 0 2
        (sample_store 3)
  ∧ ∃ resp, POST_users (H := SpecStore.ops sample_env) sample_request_b
              (sample_create "fresh" "fresh@example.com") (sample_store 3)
            = (Return resp, sample_store 3 ++ [SpecStore.new_row sample_env
                 (sample_create "fresh" "fresh@example.com")]).
Proof.
  pose proof (routes_require_token_and_ignore_its_value
                (H := SpecStore.ops sample_env) (sample_store 3) "id-1"
                sample_update (sample_create "fresh" "fresh@example.com") 0 2)
    as [Hno Hsame].
  split.
  - apply (Hno sample_request_anonymous). reflexivity.
  - destruct (Hsame sample_request sample_request_b "token-a" "token-b")
      as (_ & _ & _ & Hpost & Hlist); [reflexivity..|].
    split; [exact Hlist|].
    rewrite <- Hpost. eexists. vm_compute. reflexivity.
Defined.

(** ** Responses do not carry the password hash *)

Section Redaction.
Lemma find_fmap {A} (p : A → bool) (f : A → A) (l : list A) :
  (∀ x, p (f x) = p x) →
  List.find p (f <$> l) = f <$> List.find p l.
Proof.
  intros Hp. induction l as [|a l IH]; [done|]. cbn.
  rewrite Hp. by destruct (p a).
Qed.

Lemma existsb_fmap {A} (p : A → bool) (f : A → A) (l : list A) :
  (∀ x, p (f x) = p x) →
  existsb p (f <$> l) = existsb p l.
Proof.
  intros Hp. induction l as [|a l IH]; [done|]. cbn.
  by rewrite Hp, IH.
Qed.

Lemma get_user_redact (env : Env) (rows : SpecStore.Store) (user_id : UUID)
    (request : Request.t) (token : string) :
  (get_user (H := SpecStore.ops env) user_id request token (redact <$> rows)).1
  = (get_user (H := SpecStore.ops env) user_id request token rows).1.
Proof.
  unfold get_user, bind. cbn.
  rewrite (find_fmap _ redact) by done.
  by destruct (List.find (SpecStore.has_id user_id) rows).
Qed.

Lemma update_user_redact (env : Env) (rows : SpecStore.Store) (user_id : UUID)
    (user_update : UserUpdate.t) (request : Request.t) (token : string) :
  (update_user (H := SpecStore.ops env) user_id user_update request token
     (redact <$> rows)).1
  = (update_user (H := SpecStore.ops env) user_id user_update request token rows).1.
Proof.
  unfold update_user, bind. cbn. unfold SpecStore.update.
  rewrite (find_fmap _ redact) by done.
  by destruct (List.find (SpecStore.has_id user_id) rows).
Qed.

Lemma list_users_redact (env : Env) (rows : SpecStore.Store) (request : Request.t)
    (skip limit : Z) (token : string) :
  (list_users (H := SpecStore.ops env) request skip limit token (redact <$> rows)).1
  = (list_users (H := SpecStore.ops env) request skip limit token rows).1.
Proof.
  unfold list_users, bind. cbn. rewrite length_fmap.
  rewrite <- fmap_drop, <- fmap_take, <- list_fmap_compose.
  unfold floordiv. by repeat case_decide.
Qed.

Lemma violates_unique_redact (u1 u2 : User.t) (rows : SpecStore.Store) :
  User.id u1 = User.id u2 → User.username u1 = User.username u2 →
  User.email u1 = User.email u2 →
  SpecStore.violates_unique u1 (redact <$> rows) = SpecStore.violates_unique u2 rows.
Proof.
  intros Hid Hname Hmail. unfold SpecStore.violates_unique.
  rewrite Hid, Hname, Hmail. by apply existsb_fmap.
Qed.

Lemma create_user_redact (env1 env2 : Env) (user1 user2 : UserCreate.t)
    (rows : SpecStore.Store) (request : Request.t) (token : string) :
  now env1 = now env2 → uuid4 env1 = uuid4 env2 →
  same_but_password user1 user2 →
  (create_user (H := SpecStore.ops env1) user1 request token (redact <$> rows)).1
  = (create_user (H := SpecStore.ops env2) user2 request token rows).1.
Proof.
  intros Hnow Hid (Hname & Hmail & Hfull & Hbio & Hpic).
  unfold create_user, bind. cbn. unfold SpecStore.create.
  rewrite (find_fmap _ redact) by done. rewrite Hname.
  destruct (List.find (SpecStore.has_username (UserCreate.username user2)) rows);
    [done|]. cbn.
  rewrite (violates_unique_redact _ (SpecStore.new_row env2 user2)) by done.
  destruct (SpecStore.violates_unique (SpecStore.new_row env2 user2) rows); [done|].
  cbn. by rewrite Hnow, Hid, Hname, Hmail.
Qed.
End Redaction.

(** C6: what the get, update, list and create handlers answer does not
    depend on any password hash. On two tables that agree on everything
    but the password hashes, each handler gives the same response (or the
    same error); for create this holds even when the two requests carry
    different passwords and the hashers differ. *)
Theorem responses_exclude_hashed_password
    (env : Env) (rows1 rows2 : SpecStore.Store)
    (request : Request.t) (token : string) :
  same_public rows1 rows2 →
  (∀ user_id : UUID,
     (get_user (H := SpecStore.ops env) user_id request token rows1).1
     = (get_user (H := SpecStore.ops env) user_id request token rows2).1)
  ∧ (∀ (user_id : UUID) (user_update : UserUpdate.t),
       (update_user (H := SpecStore.ops env) user_id user_update request
          token rows1).1
       = (update_user (H := SpecStore.ops env) user_id user_update request
            token rows2).1)
  ∧ (∀ skip limit : Z,
       (list_users (H := SpecStore.ops env) request skip limit token rows1).1
       = (list_users (H := SpecStore.ops env) request skip limit token
            rows2).1)
  ∧ (∀ (env' : Env) (user1 user2 : UserCreate.t),
       now env = now env' → uuid4 env = uuid4 env' →
       same_but_password user1 user2 →
       (create_user (H := SpecStore.ops env) user1 request token rows1).1
       = (create_user (H := SpecStore.ops env') user2 request token rows2).1).
Proof.
  unfold same_public. intros Hsame. repeat split.
  - intros user_id.
    by rewrite <- (get_user_redact env rows1), Hsame, get_user_redact.
  - intros user_id user_update.
    by rewrite <- (update_user_redact env rows1), Hsame, update_user_redact.
  - intros skip limit.
    by rewrite <- (list_users_redact env rows1), Hsame, list_users_redact.
  - intros env' user1 user2 Hnow Hid Hreq.
    rewrite <- (create_user_redact env env user1 user1 rows1)
      by (done || by repeat split).
    rewrite Hsame. by apply create_user_redact.
Qed.

Lemma responses_exclude_hashed_password_witness :
  (get_user (H := SpecStore.ops sample_env) "id-1" sample_request "token-a"
     (sample_store 3)).1
  = (get_user (H := SpecStore.ops sample_env) "id-1" sample_request "token-a"
       (sample_store_rehashed 3)).1
  ∧ (create_user (H := SpecStore.ops sample_env)
       (sample_create "fresh" "fresh@example.com") sample_request "token-a"
       (sample_store 3)).1
    = (create_user (H := SpecStore.ops sample_env_b)
         (UserCreate.mk "fresh" "fresh@example.com" "another password"
            (Some "New User") None None)
         sample_request "token-a" (sample_store_rehashed 3)).1.
Proof.
  destruct (responses_exclude_hashed_password sample_env (sample_store 3)
              (sample_store_rehashed 3) sample_request "token-a")
    as (Hget & _ & _ & Hcreate).
  - vm_compute. reflexivity.
  - split; [apply Hget|].
    apply Hcreate; [reflexivity | reflexivity |].
    repeat split.
Defined.

(** ** Further properties of the handlers *)



(** Once [delete_user] has run for an identifier, whatever it answered,
    that identifier is gone from the modelled table: fetching it and
    deleting it again both answer 404. *)
Theorem delete_user_then_not_found
    (env : Env) (rows : SpecStore.Store) (user_id : UUID)
    (request : Request.t) (token : string) :
  let rows' := (delete_user (H := SpecStore.ops env) user_id token rows).2 in
  get_user (H := SpecStore.ops env) user_id request token rows'
  = (Raise (HTTPException HTTP_404_NOT_FOUND "User not found"), rows')
  ∧ delete_user (H := SpecStore.ops env) user_id token rows'
    = (Raise (HTTPException HTTP_404_NOT_FOUND "User not found"), rows').
Proof.
  assert (¬ ∃ u, u ∈ List.filter (λ r, negb (SpecStore.has_id user_id r)) rows
                 ∧ User.id u = user_id) as Hgone.
  { intros (u & Hin & Hid). apply list_elem_of_In, filter_In in Hin as [_ Hin].
    apply has_id_true in Hid. rewrite Hid in Hin. done. }
  assert ((delete_user (H := SpecStore.ops env) user_id token rows).2
          = List.filter (λ r, negb (SpecStore.has_id user_id r)) rows) as ->.
  { unfold delete_user, bind. cbn.
    by destruct (existsb (SpecStore.has_id user_id) rows). }
  split.
  - unfold get_user, bind. cbn.
    by rewrite (proj2 (find_id_None _ user_id) Hgone).
  - unfold delete_user, bind. cbn.
    destruct (existsb (SpecStore.has_id user_id) _) eqn:E.
    { apply existsb_has_id in E. done. }
    cbn. by rewrite filter_absent_id.
Qed.

(** ** Creating, fetching and updating compose *)

Section CreateFacts.
Variables (env : Env) (user : UserCreate.t) (rows : SpecStore.Store).

(** The uniqueness check of an insertion, spelled out. *)
Lemma violates_unique_false :
  SpecStore.violates_unique (SpecStore.new_row env user) rows = false
  ↔ ¬ ∃ u, u ∈ rows
           ∧ (User.id u = uuid4 env
              ∨ User.username u = UserCreate.username user
              ∨ User.email u = UserCreate.email user).
Proof.
  unfold SpecStore.violates_unique. rewrite <- not_true_iff_false.
  apply not_iff_compat. rewrite existsb_exists.
  split.
  - intros (u & Hin & Hu). exists u. split; [by apply list_elem_of_In|].
    apply orb_true_iff in Hu as [Hu|Hu];
      [apply orb_true_iff in Hu as [Hu|Hu]|].
    + left. by apply has_id_true in Hu.
    + right. left. by apply has_username_true in Hu.
    + right. right. by apply has_email_true in Hu.
  - intros (u & Hin & Hu). exists u. split; [by apply list_elem_of_In|].
    rewrite !orb_true_iff, has_id_true, has_username_true, has_email_true.
    cbn. tauto.
Qed.

Lemma create_user_run (request : Request.t) (token : string) :
  create_user (H := SpecStore.ops env) user request token rows
  = match List.find (SpecStore.has_username (UserCreate.username user)) rows
    with
    | Some _ =>
        (Raise (HTTPException HTTP_400_BAD_REQUEST "Username already exists"),
         rows)
    | None =>
        if SpecStore.violates_unique (SpecStore.new_row env user) rows
        then (Raise (HTTPException HTTP_500_INTERNAL_SERVER_ERROR
                       "Failed to create user"), rows)
        else (Return (response_of request (SpecStore.new_row env user)),
              rows ++ [SpecStore.new_row env user])
    end.
Proof.
  unfold create_user, bind. cbn. unfold SpecStore.create.
  destruct (List.find _ rows); [done|].
  by destruct (SpecStore.violates_unique _ rows).
Qed.
End CreateFacts.

(** [create_user] succeeds on the modelled table exactly when no stored row
    has the new identifier, the requested username or the requested
    email. *)
Theorem create_user_succeeds_iff_unique
    (env : Env) (rows : SpecStore.Store) (user : UserCreate.t)
    (request : Request.t) (token : string) :
  (∃ resp rows',
     create_user (H := SpecStore.ops env) user request token rows
     = (Return resp, rows'))
  ↔ ¬ ∃ u, u ∈ rows
           ∧ (User.id u = uuid4 env
              ∨ User.username u = UserCreate.username user
              ∨ User.email u = UserCreate.email user).
Proof.
  rewrite create_user_run, <- violates_unique_false. split.
  - intros (resp & rows' & Hrun).
    destruct (List.find _ rows); [done|].
    by destruct (SpecStore.violates_unique _ rows).
  - intros Hok. rewrite Hok.
    destruct (List.find _ rows) as [existing|] eqn:Hfind; [|eauto].
    exfalso. apply find_Some_elem in Hfind as [Hin Hname].
    apply violates_unique_false in Hok. apply Hok.
    exists existing. split; [done|]. right. left.
    by apply has_username_true.
Qed.

(** A successful [create_user] appends one row and answers with the new
    identifier, the requested username and email, no last login and both
    timestamps equal to the current time; fetching the returned identifier
    afterwards gives the very same response. *)
Theorem create_user_then_get_user
    (env : Env) (rows rows' : SpecStore.Store) (user : UserCreate.t)
    (request : Request.t) (token token' : string) (resp : UserResponse.t) :
  create_user (H := SpecStore.ops env) user request token rows
  = (Return resp, rows') →
  (∃ u, rows' = rows ++ [u]
        ∧ User.hashed_password u
          = hash_password env (UserCreate.password user)
        ∧ User.failed_login_attempts u = Some 0%Z)
  ∧ UserResponse.id resp = uuid4 env
  ∧ UserResponse.username resp = UserCreate.username user
  ∧ UserResponse.email resp = UserCreate.email user
  ∧ UserResponse.last_login_at resp = None
  ∧ UserResponse.created_at resp = now env
  ∧ UserResponse.updated_at resp = now env
  ∧ get_user (H := SpecStore.ops env) (UserResponse.id resp) request token'
      rows' = (Return resp, rows').
Proof.
  rewrite create_user_run.
  destruct (List.find _ rows); [done|].
  destruct (SpecStore.violates_unique _ rows) eqn:Hok; [done|].
  intros [= <- <-]. split; [by eexists|]. split_and!; try reflexivity.
  unfold get_user, bind. cbn.
  apply violates_unique_false in Hok.
  rewrite find_app_absent_id.
  - cbn. by rewrite (proj2 (has_id_true _ _)).
  - intros (u & Hin & Hid). apply Hok. exists u. auto.
Qed.

Lemma create_user_then_get_user_witness :
  ∃ resp : UserResponse.t,
    UserResponse.id resp = "id-new"
    ∧ UserResponse.username resp = "fresh"
    ∧ get_user (H := SpecStore.ops sample_env) "id-new" sample_request
        "token-b"
        (sample_store 3 ++ [SpecStore.new_row sample_env
                              (sample_create "fresh" "fresh@example.com")])
      = (Return resp,
         sample_store 3 ++ [SpecStore.new_row sample_env
                              (sample_create "fresh" "fresh@example.com")]).
Proof.
  eexists.
  destruct (create_user_then_get_user sample_env (sample_store 3) _
              (sample_create "fresh" "fresh@example.com") sample_request
              "token-a" "token-b" _ eq_refl)
    as (_ & Hid & Hname & _ & _ & _ & _ & Hget).
  split; [exact Hid|]. split; [exact Hname|]. exact Hget.
Defined.

Section UpdateCompose.
Variables (env : Env) (user_id : UUID) (fields : gmap string (option string)).

Lemma assign_idempotent (column : string) (old : option string) :
  SpecStore.assign fields column (SpecStore.assign fields column old)
  = SpecStore.assign fields column old.
Proof. unfold SpecStore.assign. by destruct (fields !! column). Qed.

Lemma apply_update_idempotent (u : User.t) :
  SpecStore.apply_update env fields (SpecStore.apply_update env fields u)
  = SpecStore.apply_update env fields u.
Proof.
  unfold SpecStore.apply_update. cbn. by rewrite !assign_idempotent.
Qed.

Lemma has_id_rewrite_row (i : UUID) (r : User.t) :
  SpecStore.has_id i (rewrite_row env user_id fields r)
  = SpecStore.has_id i r.
Proof. unfold rewrite_row. by destruct (SpecStore.has_id user_id r). Qed.

Lemma rewrite_row_idempotent (r : User.t) :
  rewrite_row env user_id fields (rewrite_row env user_id fields r)
  = rewrite_row env user_id fields r.
Proof.
  unfold rewrite_row at 2.
  destruct (SpecStore.has_id user_id r) eqn:E.
  - unfold rewrite_row. cbn. unfold SpecStore.has_id in *. cbn.
    rewrite E. apply apply_update_idempotent.
  - unfold rewrite_row. by rewrite E.
Qed.

Lemma update_run (rows : SpecStore.Store) :
  SpecStore.update env user_id fields rows
  = match List.find (SpecStore.has_id user_id) rows with
    | None => (Return None, rows)
    | Some u =>
        (Return (Some (SpecStore.apply_update env fields u)),
         rewrite_row env user_id fields <$> rows)
    end.
Proof. reflexivity. Qed.

Lemma find_rewritten (rows : SpecStore.Store) :
  List.find (SpecStore.has_id user_id)
    (rewrite_row env user_id fields <$> rows)
  = SpecStore.apply_update env fields
      <$> List.find (SpecStore.has_id user_id) rows.
Proof.
  induction rows as [|r rows IH]; [done|]. cbn.
  rewrite has_id_rewrite_row.
  destruct (SpecStore.has_id user_id r) eqn:E; [|done].
  cbn. unfold rewrite_row. by rewrite E.
Qed.
End UpdateCompose.

(** A successful [update_user] answers with the identifier it was given,
    and what it stored is what it answered: fetching the user afterwards
    gives the same response, and repeating the same update at the same
    time gives the same response and leaves the table as the first update
    left it. *)
Theorem update_user_then_get_user
    (env : Env) (rows rows' : SpecStore.Store) (user_id : UUID)
    (user_update : UserUpdate.t) (request : Request.t)
    (token token' : string) (resp : UserResponse.t) :
  update_user (H := SpecStore.ops env) user_id user_update request token rows
  = (Return resp, rows') →
  UserResponse.id resp = user_id
  ∧ length rows' = length rows
  ∧ get_user (H := SpecStore.ops env) user_id request token' rows'
    = (Return resp, rows')
  ∧ update_user (H := SpecStore.ops env) user_id user_update request token'
      rows' = (Return resp, rows').
Proof.
  unfold update_user, get_user, bind. cbn. rewrite update_run.
  destruct (List.find (SpecStore.has_id user_id) rows) as [u|] eqn:Hfind;
    [|done].
  intros [= <- <-]. cbn.
  apply find_Some_elem in Hfind as Hu. destruct Hu as [_ Hid].
  apply has_id_true in Hid.
  split; [done|]. split; [by rewrite length_fmap|].
  rewrite update_run, find_rewritten, Hfind. cbn.
  split; [done|]. f_equal.
  rewrite <- list_fmap_compose. apply list_fmap_ext.
  intros _ r _. apply rewrite_row_idempotent.
Qed.

Lemma update_user_then_get_user_witness :
  ∃ (resp : UserResponse.t) (rows' : SpecStore.Store),
    update_user (H := SpecStore.ops sample_env) "id-1" sample_update
      sample_request "token-a" (sample_store 3) = (Return resp, rows')
    ∧ UserResponse.id resp = "id-1"
    ∧ UserResponse.updated_at resp = 1712556416%Z
    ∧ get_user (H := SpecStore.ops sample_env) "id-1" sample_request
        "token-b" rows' = (Return resp, rows').
Proof.
  eexists _, _. split; [reflexivity|].
  destruct (update_user_then_get_user sample_env (sample_store 3) _ "id-1"
              sample_update sample_request "token-a" "token-b" _ eq_refl)
    as (Hid & _ & Hget & _).
  split; [exact Hid|]. split; [reflexivity|]. exact Hget.
Defined.

(** ** The constraints of the migration are kept *)

Section Constraints.
Implicit Types rows : list User.t.

Lemma NoDup_key {A} (f : User.t → A) (g : A → list value) rows :
  Inj (=) (=) g →
  NoDup ((λ u, g (f u)) <$> rows) ↔ NoDup (f <$> rows).
Proof.
  intros Hinj.
  rewrite (list_fmap_compose f g rows : (λ u, g (f u)) <$> rows = _).
  apply NoDup_fmap, _.
Qed.

(** The three declared constraints are: distinct identifiers, distinct
    emails, distinct usernames. *)
Lemma constraints_hold_iff rows :
  constraints_hold rows
  ↔ NoDup (User.id <$> rows) ∧ NoDup (User.email <$> rows)
    ∧ NoDup (User.username <$> rows).
Proof.
  unfold constraints_hold. cbn.
  rewrite !Forall_cons, Forall_nil. unfold satisfies. cbn.
  rewrite <- (NoDup_key User.id (λ s, [Text s]) rows)
    by (intros ?? [= ?]; done).
  rewrite <- (NoDup_key User.email (λ s, [Text s]) rows)
    by (intros ?? [= ?]; done).
  rewrite <- (NoDup_key User.username (λ s, [Text s]) rows)
    by (intros ?? [= ?]; done).
  tauto.
Qed.

Lemma NoDup_fmap_filter {A} (f : User.t → A) (p : User.t → bool) rows :
  NoDup (f <$> rows) → NoDup (f <$> List.filter p rows).
Proof.
  induction rows as [|r rows IH]; [done|]. cbn.
  intros [Hr Hnd]%NoDup_cons. destruct (p r); [|by apply IH].
  cbn. apply NoDup_cons. split; [|by apply IH].
  intros Hin. apply Hr.
  apply list_elem_of_fmap in Hin as (r' & -> & Hin).
  apply list_elem_of_In, filter_In in Hin as [Hin _].
  apply list_elem_of_fmap_2. by apply list_elem_of_In.
Qed.

Lemma NoDup_fmap_snoc {A} (f : User.t → A) rows (u : User.t) :
  NoDup (f <$> rows) → (∀ r, r ∈ rows → f r ≠ f u) →
  NoDup (f <$> rows ++ [u]).
Proof.
  intros Hnd Hfresh. rewrite fmap_app. apply NoDup_app.
  split; [done|]. split; [|apply NoDup_singleton].
  intros x Hx [->|[]%elem_of_nil]%elem_of_cons.
  apply list_elem_of_fmap in Hx as (r & Heq & Hin).
  by apply (Hfresh r).
Qed.

Lemma delete_keeps_constraints rows (user_id : UUID) :
  constraints_hold rows →
  constraints_hold (List.filter (λ r, negb (SpecStore.has_id user_id r)) rows).
Proof.
  rewrite !constraints_hold_iff. intros (? & ? & ?).
  split_and!; by apply NoDup_fmap_filter.
Qed.

Lemma update_keeps_constraints (env : Env) (user_id : UUID)
    (fields : gmap string (option string)) rows :
  constraints_hold rows →
  constraints_hold (rewrite_row env user_id fields <$> rows).
Proof.
  rewrite !constraints_hold_iff. rewrite <- !list_fmap_compose.
  assert (∀ {A} (f : User.t → A),
            (∀ u, f (SpecStore.apply_update env fields u) = f u) →
            f ∘ rewrite_row env user_id fields <$> rows = f <$> rows) as Hsame.
  { intros A f Hf. apply list_fmap_ext. intros _ r _. cbn.
    unfold rewrite_row. by destruct (SpecStore.has_id user_id r). }
  by rewrite !Hsame.
Qed.

Lemma create_keeps_constraints (env : Env) (user : UserCreate.t) rows :
  constraints_hold rows →
  SpecStore.violates_unique (SpecStore.new_row env user) rows = false →
  constraints_hold (rows ++ [SpecStore.new_row env user]).
Proof.
  rewrite !constraints_hold_iff, violates_unique_false.
  intros (? & ? & ?) Hfresh.
  split_and!; (apply NoDup_fmap_snoc; [done|]);
    intros r Hin Heq; apply Hfresh; exists r; cbn in Heq; auto.
Qed.
End Constraints.

(** Whatever a handler does to a modelled table that satisfies the
    constraints of the migration (primary key [id], unique [email], unique
    [username]), the table it leaves satisfies them again. *)
Theorem handlers_keep_constraints
    (env : Env) (rows : SpecStore.Store) (request : Request.t)
    (token : string) :
  constraints_hold rows →
  (∀ user_id : UUID,
     constraints_hold
       (get_user (H := SpecStore.ops env) user_id request token rows).2)
  ∧ (∀ (user_id : UUID) (user_update : UserUpdate.t),
       constraints_hold
         (update_user (H := SpecStore.ops env) user_id user_update request
            token rows).2)
  ∧ (∀ user_id : UUID,
       constraints_hold
         (delete_user (H := SpecStore.ops env) user_id token rows).2)
  ∧ (∀ user : UserCreate.t,
       constraints_hold
         (create_user (H := SpecStore.ops env) user request token rows).2)
  ∧ (∀ skip limit : Z,
       constraints_hold
         (list_users (H := SpecStore.ops env) request skip limit token rows).2).
Proof.
  intros Hok. split_and!.
  - intros user_id. unfold get_user, bind. cbn.
    by destruct (List.find _ rows).
  - intros user_id user_update. unfold update_user, bind. cbn.
    rewrite update_run. destruct (List.find _ rows); [|done].
    cbn. by apply update_keeps_constraints.
  - intros user_id. unfold delete_user, bind. cbn.
    destruct (existsb _ rows); cbn; by apply delete_keeps_constraints.
  - intros user. rewrite create_user_run.
    destruct (List.find _ rows); [done|].
    destruct (SpecStore.violates_unique _ rows) eqn:E; [done|].
    cbn. by apply create_keeps_constraints.
  - intros skip limit. unfold list_users, bind. cbn. unfold floordiv.
    by repeat destruct (decide _).
Qed.

Lemma handlers_keep_constraints_witness :
  constraints_hold
    (create_user (H := SpecStore.ops sample_env)
       (sample_create "fresh" "fresh@example.com") sample_request "token-a"
       (sample_store 3)).2
  ∧ constraints_hold
      (delete_user (H := SpecStore.ops sample_env) "id-1" "token-a"
         (sample_store 3)).2.
Proof.
  destruct (handlers_keep_constraints sample_env (sample_store 3)
              sample_request "token-a") as (_ & _ & Hdel & Hcreate & _).
  - apply constraints_hold_iff.
    split_and!; apply (bool_decide_unpack _); vm_compute; exact I.
  - split; [apply Hcreate | apply Hdel].
Defined.

(** ** The items of a listing *)

Lemma list_users_run (env : Env) (rows : SpecStore.Store)
    (request : Request.t) (skip limit : Z) (token : string) :
  limit ≠ 0%Z →
  list_users (H := SpecStore.ops env) request skip limit token rows
  = (Return
       (UserListResponse.mk
          (response_of request
             <$> take (Z.to_nat limit) (drop (Z.to_nat skip) rows))
          (EnhancedPagination.mk
             (skip / limit + 1)%Z limit (Z.of_nat (length rows))
             ((Z.of_nat (length rows) + limit - 1) / limit)%Z
             (generate_pagination_links request skip limit
                (Z.of_nat (length rows))))),
     rows).
Proof.
  intros Hl.
  by rewrite (list_users_returns (H := SpecStore.ops env) request skip limit
                token rows rows rows (Z.of_nat (length rows))
                (take (Z.to_nat limit) (drop (Z.to_nat skip) rows))
                eq_refl eq_refl Hl).
Qed.

(** A listing with [skip >= 0] and [limit > 0] over the modelled table
    holds one item per row of the window [skip, skip + limit), in table
    order: [min limit (max 0 (total - skip))] items, hence never more than
    [limit], and none once [skip] reaches the number of rows. It reports
    the number of rows as [total_items] and does not change the table. *)
Theorem list_users_items_window
    (env : Env) (rows rows' : SpecStore.Store) (request : Request.t)
    (skip limit : Z) (token : string) (resp : UserListResponse.t) :
  (0 ≤ skip)%Z → (0 < limit)%Z →
  list_users (H := SpecStore.ops env) request skip limit token rows
  = (Return resp, rows') →
  rows' = rows
  ∧ UserResponse.id <$> UserListResponse.items resp
    = User.id <$> take (Z.to_nat limit) (drop (Z.to_nat skip) rows)
  ∧ Z.of_nat (length (UserListResponse.items resp))
    = Z.min limit (Z.max 0 (Z.of_nat (length rows) - skip))
  ∧ (Z.of_nat (length (UserListResponse.items resp)) ≤ limit)%Z
  ∧ ((Z.of_nat (length rows) ≤ skip)%Z → UserListResponse.items resp = [])
  ∧ EnhancedPagination.total_items (UserListResponse.pagination resp)
    = Z.of_nat (length rows).
Proof.
  intros Hskip Hlimit. rewrite list_users_run by lia.
  intros [= <- <-]. cbn.
  split; [done|]. split; [by rewrite <- list_fmap_compose|].
  rewrite length_fmap, length_take, length_drop.
  split; [lia|]. split; [lia|]. split; [|done].
  intros Hend. rewrite drop_ge by lia. by rewrite take_nil.
Qed.

Lemma list_users_items_window_witness :
  ∃ resp : UserListResponse.t,
    list_users (H := SpecStore.ops sample_env) sample_request 20 10 "token-a"
      (sample_store 25) = (Return resp, sample_store 25)
    ∧ UserResponse.id <$> UserListResponse.items resp
      = ["id-20"; "id-21"; "id-22"; "id-23"; "id-24"].
Proof.
  eexists. split; [reflexivity|].
  destruct (list_users_items_window sample_env (sample_store 25) _
              sample_request 20 10 "token-a" _ ltac:(lia) ltac:(lia) eq_refl)
    as (_ & Hids & _).
  rewrite Hids. vm_compute. reflexivity.
Defined.

(** Two listings of consecutive windows of the same table do not overlap
    and leave no gap: the items of [skip, skip + limit1) followed by those
    of [skip + limit1, skip + limit1 + limit2) are the items of
    [skip, skip + limit1 + limit2). *)
Theorem list_users_consecutive_pages
    (env : Env) (rows : SpecStore.Store) (request : Request.t)
    (skip limit1 limit2 : Z) (token : string)
    (first second both : UserListResponse.t) :
  (0 ≤ skip)%Z → (0 < limit1)%Z → (0 < limit2)%Z →
  (list_users (H := SpecStore.ops env) request skip limit1 token rows).1
  = Return first →
  (list_users (H := SpecStore.ops env) request (skip + limit1) limit2 token
     rows).1 = Return second →
  (list_users (H := SpecStore.ops env) request skip (limit1 + limit2) token
     rows).1 = Return both →
  UserListResponse.items first ++ UserListResponse.items second
  = UserListResponse.items both.
Proof.
  intros Hskip H1 H2. rewrite !list_users_run by lia. cbn.
  intros [= <-] [= <-] [= <-]. cbn.
  rewrite <- fmap_app. f_equal.
  rewrite !Z2Nat.inj_add by lia.
  by rewrite <- drop_drop, take_take_drop.
Qed.

Lemma list_users_consecutive_pages_witness :
  ∃ first second both : UserListResponse.t,
    (list_users (H := SpecStore.ops sample_env) sample_request 0 2 "token-a"
       (sample_store 5)).1 = Return first
    ∧ (list_users (H := SpecStore.ops sample_env) sample_request 2 2 "token-a"
         (sample_store 5)).1 = Return second
    ∧ (list_users (H := SpecStore.ops sample_env) sample_request 0 4 "token-a"
         (sample_store 5)).1 = Return both
    ∧ UserListResponse.items first ++ UserListResponse.items second
      = UserListResponse.items both.
Proof.
  eexists _, _, _. split; [reflexivity|]. split; [reflexivity|].
  split; [reflexivity|].
  apply (list_users_consecutive_pages sample_env (sample_store 5)
           sample_request 0 2 2 "token-a"); [lia | lia | lia | ..];
    reflexivity.
Defined.

(** For any data-access implementation that answers both store calls, a
    listing with [skip >= 0], [limit > 0] and a count [total_users >= 0]
    reports a page number of at least 1 and a non-negative number of
    pages; the number of pages is 0 exactly for an empty table; and the
    page number is within the number of pages exactly when the first
    offset of that page lies inside the table, in particular whenever
    [skip < total_users]. *)
Theorem list_users_page_bounds
    {DB : Type} `{!UserService.Ops DB}
    (request : Request.t) (skip limit : Z) (token : string)
    (db db1 db2 : DB) (total_users : Z) (users : list User.t) :
  UserService.count db = (Return total_users, db1) →
  UserService.list_users skip limit db1 = (Return users, db2) →
  (0 ≤ skip)%Z → (0 < limit)%Z → (0 ≤ total_users)%Z →
  ∃ resp : UserListResponse.t,
    list_users request skip limit token db = (Return resp, db2)
    ∧ let page :=
        EnhancedPagination.page (UserListResponse.pagination resp) in
      let total_pages :=
        EnhancedPagination.total_pages (UserListResponse.pagination resp) in
      (1 ≤ page)%Z ∧ (0 ≤ total_pages)%Z
      ∧ (total_pages = 0%Z ↔ total_users = 0%Z)
      ∧ ((page ≤ total_pages)%Z ↔ ((page - 1) * limit < total_users)%Z)
      ∧ ((skip < total_users)%Z → (page ≤ total_pages)%Z).
Proof.
  intros Hcount Hlist Hskip Hlimit Htotal.
  eexists. split.
  { apply (list_users_returns request skip limit token _ _ _ _ _ Hcount Hlist).
    lia. }
  cbn.
  pose proof (ceil_div_formula total_users limit Hlimit) as Hceil.
  unfold is_ceil_div in Hceil.
  pose proof (Z.div_mod skip limit ltac:(lia)) as Hdm.
  pose proof (Z.mod_pos_bound skip limit Hlimit) as Hmod.
  pose proof (Z.div_pos skip limit Hskip Hlimit) as Hq.
  set (q := (skip / limit)%Z) in *.
  set (k := ((total_users + limit - 1) / limit)%Z) in *.
  split; [lia|]. split; [nia|]. split; [split; nia|].
  split; [split; nia|]. nia.
Qed.

(** An empty table listed with the default parameters: page 1 of 0. *)
Lemma list_users_page_bounds_witness :
  ∃ resp : UserListResponse.t,
    list_users (H := SpecStore.ops sample_env) sample_request 0 10 "token-a"
      (sample_store 0) = (Return resp, sample_store 0)
    ∧ EnhancedPagination.page (UserListResponse.pagination resp) = 1%Z
    ∧ EnhancedPagination.total_pages (UserListResponse.pagination resp) = 0%Z.
Proof.
  destruct (list_users_page_bounds (H := SpecStore.ops sample_env)
              sample_request 0 10 "token-a"
              (sample_store 0) (sample_store 0) (sample_store 0) 0 [])
    as (resp & Hrun & Hpage & Hpages & Hzero & Hin & _);
    [reflexivity | reflexivity | lia | lia | lia |].
  exists resp. split; [exact Hrun|]. cbn zeta in *.
  assert (EnhancedPagination.total_pages (UserListResponse.pagination resp)
          = 0%Z) as Hk by (by apply Hzero).
  split; [|exact Hk].
  assert (list_users (H := SpecStore.ops sample_env) sample_request 0 10
            "token-a" (sample_store 0)
          = (Return resp, sample_store 0)) as Hrun' by exact Hrun.
  vm_compute in Hrun'. injection Hrun' as <-. reflexivity.
Defined.

(** [update_user] answers 404 exactly when no row of the modelled table
    carries the identifier. *)
Theorem update_user_not_found_iff_absent
    (env : Env) (rows : SpecStore.Store) (user_id : UUID)
    (user_update : UserUpdate.t) (request : Request.t) (token : string) :
  update_user (H := SpecStore.ops env) user_id user_update request token rows
  = (Raise (HTTPException HTTP_404_NOT_FOUND "User not found"), rows)
  ↔ ¬ ∃ u, u ∈ rows ∧ User.id u = user_id.
Proof.
  rewrite <- find_id_None. unfold update_user, bind. cbn.
  rewrite update_run.
  destruct (List.find (SpecStore.has_id user_id) rows); by split.
Qed.

(** ** The migration *)

(** On a database without a [users] table, [upgrade()] adds the table with
    the declared definition and touches no other table, [downgrade()] then
    restores the catalogue exactly; running [upgrade()] a second time, or
    [downgrade()] before any upgrade, fails and changes nothing. *)
Theorem upgrade_downgrade_round_trip (catalogue : gmap string Table.t) :
  catalogue !! "users" = None →
  ∃ upgraded : gmap string Table.t,
    upgrade catalogue = (Return (), upgraded)
    ∧ upgraded !! "users" = Some users_table
    ∧ (∀ name, name ≠ "users" → upgraded !! name = catalogue !! name)
    ∧ downgrade upgraded = (Return (), catalogue)
    ∧ (∃ e, upgrade upgraded = (Raise e, upgraded))
    ∧ (∃ e, downgrade catalogue = (Raise e, catalogue)).
Proof.
  intros Hfresh. exists (<["users" := users_table]> catalogue).
  unfold upgrade, downgrade, create_table, drop_table.
  rewrite Hfresh, lookup_insert_eq. split_and!; [done..| | |eauto|eauto].
  - intros name Hne. by rewrite lookup_insert_ne.
  - by rewrite delete_insert_id.
Qed.

Lemma upgrade_downgrade_round_trip_witness :
  bind upgrade (λ _, downgrade) sample_catalogue
  = (Return (), sample_catalogue).
Proof.
  destruct (upgrade_downgrade_round_trip sample_catalogue)
    as (upgraded & Hup & _ & _ & Hdown & _).
  - reflexivity.
  - unfold bind. rewrite Hup. exact Hdown.
Defined.
